(** * KPIChatbot: translation, suggestion, result shaping and the
      connection registry, embedded from the TypeScript sources.

    - [JS]: the fragment of the JavaScript string and object library the
      server code calls ([trim], [toLowerCase], [includes], [join],
      [Object.keys], the two regular expressions of the SQL clean-up).
    - [Gemini]: [server/services/gemini.ts].
    - [Routes]: the demo route helpers [generateMockSQL] and
      [generateMockResults].
    - [DatabaseConfigService]: the connection registry with its durable copy,
      and the formatting of the extracted schema.
    - [Api]: the login and session route handlers.

    Strings are byte strings. [trim], [toLowerCase] and the character classes
    of the regular expressions are given on ASCII text, and the theorems about
    an arbitrary model reply assume it is ASCII ([JS.isASCII]). Objects are
    modelled with their own entries and with what a keyed read finds on the
    prototype chain when there is no own entry. *)

From Stdlib Require Import String Ascii NArith ZArith Bool List Lia.
From stdpp Require Import base option list strings gmap fin_maps.
Import ListNotations.

Set Warnings "-register-all".

Local Open Scope string_scope.
Local Open Scope list_scope.

(** ** JavaScript library fragment *)
Module JS.

(** What a call can do besides returning: [throw new Error(msg)], or a
    [TypeError] raised by the runtime on a property access it cannot carry
    out (the text of a [TypeError] is the engine's wording; the code never
    reads it, and one fixed text per kind stands for it). *)
Inductive Thrown : Type :=
| Error (msg : string)
| TypeError (msg : string).

(** [error.message]. *)
Definition message (e : Thrown) : string :=
  match e with
  | Error m | TypeError m => m
  end.

Inductive Completion (A : Type) : Type :=
| Return (a : A)
| Throw (e : Thrown).
Arguments Return {A} a.
Arguments Throw {A} e.

(** The own entries of a plain object, in the order [Object.keys]
    enumerates them. *)
Definition Obj (A : Type) : Type := list (string * A).

Definition Object_keys {A : Type} (o : Obj A) : list string := map fst o.

(** The own entry under a key. *)
Fixpoint get {A : Type} (o : Obj A) (k : string) : option A :=
  match o with
  | [] => None
  | (k', v) :: o' => if String.eqb k' k then Some v else get o' k
  end.

(** [Array.prototype.includes] on an array of strings. *)
Fixpoint Array_includes (l : list string) (x : string) : bool :=
  match l with
  | [] => false
  | y :: l' => String.eqb y x || Array_includes l' x
  end.

(** [get] finds own entries. A read [o[k]] that finds none goes on to
    [Object.prototype]: its functions, its accessor [__proto__], which gives
    [Object.prototype] itself, and a property [isActive] once
    [Object.prototype.isActive = true] has run (the one write to
    [Object.prototype] the server code can make, see
    [DatabaseConfigService.setActiveConnection]). *)
Definition objectPrototypeFunctions : list string :=
  ["constructor"; "__defineGetter__"; "__defineSetter__"; "hasOwnProperty";
   "__lookupGetter__"; "__lookupSetter__"; "isPrototypeOf";
   "propertyIsEnumerable"; "toString"; "valueOf"; "toLocaleString"].

Inductive Inherited : Type :=
| Builtin (name : string)
| ObjectPrototype
| IsActiveTrue.

(** What [Object.prototype] has under a key; [polluted] tells whether
    [Object.prototype.isActive] has been set. *)
Definition inherited (polluted : bool) (k : string) : option Inherited :=
  if Array_includes objectPrototypeFunctions k then Some (Builtin k)
  else if String.eqb k "__proto__" then Some ObjectPrototype
  else if String.eqb k "isActive" && polluted then Some IsActiveTrue
  else None.

(** [Array.prototype.slice(0, n)] and [Array.prototype.join]. *)
Definition slice0 {A : Type} (n : nat) (l : list A) : list A := firstn n l.
Definition join (sep : string) (l : list string) : string := String.concat sep l.

(** ASCII letters. *)
Definition isUpper (c : ascii) : bool :=
  let n := N_of_ascii c in (65 <=? n)%N && (n <=? 90)%N.

Definition lowerChar (c : ascii) : ascii :=
  if isUpper c then ascii_of_N (N_of_ascii c + 32) else c.

(** [String.prototype.toLowerCase]. *)
Fixpoint toLowerCase (s : string) : string :=
  match s with
  | EmptyString => EmptyString
  | String c s' => String (lowerChar c) (toLowerCase s')
  end.

(** [String.prototype.startsWith] and [String.prototype.includes]. *)
Definition startsWith (s sub : string) : bool := String.prefix sub s.

Fixpoint includes (s sub : string) : bool :=
  startsWith s sub ||
  match s with
  | EmptyString => false
  | String _ s' => includes s' sub
  end.

(** The class [\s] and [String.prototype.trim], on ASCII text (beyond ASCII
    the class has further members, such as U+00A0). *)
Definition isSpace (c : ascii) : bool :=
  let n := N_of_ascii c in
  ((9 <=? n)%N && (n <=? 13)%N) || (n =? 32)%N.

Fixpoint trimStart (s : string) : string :=
  match s with
  | String c s' => if isSpace c then trimStart s' else s
  | EmptyString => EmptyString
  end.

Fixpoint trimEnd (s : string) : string :=
  match s with
  | EmptyString => EmptyString
  | String c s' =>
      match trimEnd s' with
      | EmptyString => if isSpace c then EmptyString else String c EmptyString
      | t => String c t
      end
  end.

Definition trim (s : string) : string := trimEnd (trimStart s).

Fixpoint drop (n : nat) (s : string) : string :=
  match n, s with
  | O, _ => s
  | S n', String _ s' => drop n' s'
  | S _, EmptyString => EmptyString
  end.

(** A literal matched under the [i] flag. *)
Fixpoint startsWithIgnoreCase (s lit : string) : bool :=
  match lit, s with
  | EmptyString, _ => true
  | String a lit', String b s' =>
      Ascii.eqb (lowerChar a) (lowerChar b) && startsWithIgnoreCase s' lit'
  | String _ _, EmptyString => false
  end.

(** Every character of a string satisfies a test. *)
Fixpoint allChars (p : ascii -> bool) (s : string) : bool :=
  match s with
  | EmptyString => true
  | String c s' => p c && allChars p s'
  end.

Definition isBacktick (c : ascii) : bool := Ascii.eqb c "`".

Definition isASCII (s : string) : bool :=
  allChars (fun c => (N_of_ascii c <? 128)%N) s.

(** *** Property assignment in [Object.keys] order *)

Definition digit (c : ascii) : option N :=
  let n := N_of_ascii c in
  if (48 <=? n)%N && (n <=? 57)%N then Some (n - 48)%N else None.

Fixpoint numeral (s : string) (acc : N) : option N :=
  match s with
  | EmptyString => Some acc
  | String c s' =>
      match digit c with
      | Some d => numeral s' (10 * acc + d)%N
      | None => None
      end
  end.

(** The array index a property key denotes: a decimal numeral without
    leading zero below 2^32 - 1. [Object.keys] lists these keys first, in
    ascending order, and the other string keys after them in the order they
    were created. *)
Definition arrayIndex (k : string) : option N :=
  match k with
  | EmptyString => None
  | String c rest =>
      if Ascii.eqb c "0" && negb (String.eqb rest "") then None
      else
        match numeral k 0 with
        | Some n => if (n <? 4294967295)%N then Some n else None
        | None => None
        end
  end.

Fixpoint replaceProp {A : Type} (o : Obj A) (k : string) (v : A) : Obj A :=
  match o with
  | [] => []
  | (k', v') :: o' =>
      if String.eqb k' k then (k', v) :: o' else (k', v') :: replaceProp o' k v
  end.

(** A new index key goes before the first key that is a larger index or no
    index at all. *)
Fixpoint insertIndex {A : Type} (o : Obj A) (n : N) (k : string) (v : A) : Obj A :=
  match o with
  | [] => [(k, v)]
  | (k', v') :: o' =>
      match arrayIndex k' with
      | Some n' =>
          if (n' <? n)%N then (k', v') :: insertIndex o' n k v
          else (k, v) :: (k', v') :: o'
      | None => (k, v) :: (k', v') :: o'
      end
  end.

(** [o[k] = v] on a plain object created by [{}], for [v] an object: the
    key ["__proto__"] names the accessor of [Object.prototype], so the
    assignment replaces the prototype of [o] and leaves its own entries as
    they are; an existing key keeps its place and takes the new value; a new
    key is created, at the place [Object.keys] lists it. *)
Definition setProp {A : Type} (o : Obj A) (k : string) (v : A) : Obj A :=
  if String.eqb k "__proto__" then o
  else
    match get o k with
    | Some _ => replaceProp o k v
    | None =>
        match arrayIndex k with
        | Some n => insertIndex o n k v
        | None => o ++ [(k, v)]
        end
    end.

(** A key that is created last: neither ["__proto__"] nor an array index. *)
Definition ordinaryKey (k : string) : bool :=
  negb (String.eqb k "__proto__") &&
  match arrayIndex k with
  | Some _ => false
  | None => true
  end.

(** [items.forEach(item => { o[key(item)] = value(item); })]. *)
Definition assignAll {A B : Type} (key : A -> string) (value : A -> B)
    (items : list A) (o : Obj B) : Obj B :=
  fold_left (fun o item => setProp o (key item) (value item)) items o.

End JS.

(** ** server/services/gemini.ts *)
Module Gemini.
Import JS.

(** The schema object the translator receives (the [Schema] interface). *)
Record ColumnInfo : Type := {
  type : string;
  nullable : bool;
  column_default : option string
}.

Record TableInfo : Type := {
  columns : option (Obj ColumnInfo)
}.

Record Schema : Type := {
  tables : option (Obj TableInfo)
}.

Definition NO_TABLES : string := "No tables available for querying".

Definition SQL_TOTAL_LOANS : string :=
  "SELECT SUM(loan_amount) as total_loan_amount, COUNT(*) as total_loans FROM loans;".
Definition SQL_CUSTOMER_COUNT : string :=
  "SELECT COUNT(*) as customer_count FROM customers;".
Definition SQL_PAYMENTS : string :=
  "SELECT SUM(amount_paid) as total_payments, COUNT(*) as payment_count FROM payments;".
Definition SQL_LOAN_TYPES : string :=
  "SELECT loan_type, COUNT(*) as loan_count, AVG(loan_amount) as avg_amount FROM loans GROUP BY loan_type ORDER BY loan_count DESC;".

(** [Object.keys(schema.tables || {})]. *)
Definition tableNames (schema : Schema) : list string :=
  Object_keys (default [] (tables schema)).

(** [Object.keys(schema.tables[firstTable].columns || {})]; the property
    read of [columns] raises when [schema.tables[firstTable]] is undefined. *)
Definition columnNames (schema : Schema) (table : string) : Completion (list string) :=
  match get (default [] (tables schema)) table with
  | None => Throw (TypeError "Cannot read properties of undefined (reading 'columns')")
  | Some t => Return (Object_keys (default [] (columns t)))
  end.

Definition generateFallbackSQL (query : string) (schema : Schema) : Completion string :=
  let lowerQuery := toLowerCase query in
  let tables := tableNames schema in
  match tables with
  | [] => Throw (Error NO_TABLES)
  | firstTable :: _ =>
      if includes lowerQuery "total" && includes lowerQuery "loan"
         && Array_includes tables "loans" then Return SQL_TOTAL_LOANS
      else if includes lowerQuery "customer" && includes lowerQuery "count"
         && Array_includes tables "customers" then Return SQL_CUSTOMER_COUNT
      else if (includes lowerQuery "payment" || includes lowerQuery "transaction")
         && Array_includes tables "payments" then Return SQL_PAYMENTS
      else if includes lowerQuery "loan" && includes lowerQuery "type"
         && Array_includes tables "loans" then Return SQL_LOAN_TYPES
      else
        match columnNames schema firstTable with
        | Throw e => Throw e
        | Return columns =>
            let limitedColumns := join ", " (slice0 5 columns) in
            Return ("SELECT " +:+ limitedColumns +:+ " FROM " +:+ firstTable +:+ " LIMIT 10;")
        end
  end.


(** *** Cleaning the primary tier's reply *)

(** [\s*```]: optional white space, then a closing fence. *)
Definition closesFence (s : string) : bool := startsWith (trimStart s) "```".

(** [[\s\S]*?] followed by [\s*```]: the lazy star first tries to stop, and
    takes one more character only when the rest does not close. *)
Fixpoint lazyBody (s : string) : option string :=
  if closesFence s then Some EmptyString
  else match s with
       | EmptyString => None
       | String c s' => option_map (String c) (lazyBody s')
       end.

(** One attempt of [/```(?:sql)?\s*(SELECT[\s\S]*?)\s*```/i] at the head of
    [s], giving capture group 1. Giving back the optional [sql] or some white
    space cannot help: [SELECT] would then face [s], [q] or a blank. *)
Definition fencedSelectAt (s : string) : option string :=
  if startsWith s "```" then
    let r := drop 3 s in
    let r := if startsWithIgnoreCase r "sql" then drop 3 r else r in
    let r := trimStart r in
    if startsWithIgnoreCase r "SELECT" then
      match lazyBody (drop 6 r) with
      | Some body => Some (substring 0 6 r +:+ body)
      | None => None
      end
    else None
  else None.

(** [cleanSQL.match(...)]: the leftmost position where an attempt succeeds. *)
Fixpoint fencedSelect (s : string) : option string :=
  match fencedSelectAt s with
  | Some group1 => Some group1
  | None =>
      match s with
      | EmptyString => None
      | String _ s' => fencedSelect s'
      end
  end.

(** The class [[^S]] under the [i] flag excludes both cases of the letter. *)
Definition isS (c : ascii) : bool := Ascii.eqb (lowerChar c) "s".

(** [/^[^S]*SELECT/i] at the start of the text, giving what follows the
    match: the greedy star takes every character it can, and [SELECT] is
    tried at the longest prefix first, then at shorter ones. *)
Fixpoint leadingSelect (s : string) : option string :=
  let here := if startsWithIgnoreCase s "SELECT" then Some (drop 6 s) else None in
  match s with
  | EmptyString => here
  | String c s' =>
      if isS c then here
      else match leadingSelect s' with
           | Some rest => Some rest
           | None => here
           end
  end.

(** The body of the [try] block after the reply has arrived. *)
Definition cleanResponse (rawSQL : string) : string :=
  let cleanSQL := trim rawSQL in
  let cleanSQL :=
    if includes cleanSQL "```" then
      match fencedSelect cleanSQL with
      | Some group1 => trim group1
      | None => cleanSQL
      end
    else cleanSQL in
  match leadingSelect cleanSQL with
  | Some rest => "SELECT" +:+ rest
  | None => cleanSQL
  end.

(** What [await ai.models.generateContent(...)] does: it rejects, or it
    resolves to a response whose [text] may be undefined. *)
Inductive Generated : Type :=
| Rejected
| Response (text : option string).

Definition generateSQLFromQuery (ai : Generated) (naturalLanguageQuery : string)
    (schema : Schema) (sector : string) : Completion string :=
  match ai with
  | Response text =>
      let rawSQL := default "" text in
      Return (cleanResponse rawSQL)
  | Rejected => generateFallbackSQL naturalLanguageQuery schema
  end.

(** *** KPI suggestions *)

Record KPISuggestion : Type := {
  id : string;
  name : string;
  description : string;
  query_template : string;
  category : string
}.

(** Values [JSON.parse] produces (of a number only its being zero matters
    below). *)
Inductive JSON : Type :=
| JNull
| JBool (b : bool)
| JNumber (n : Z)
| JString (s : string)
| JArray (elements : list JSON)
| JObject (members : Obj JSON).

Definition toObject (k : KPISuggestion) : JSON :=
  JObject [("id", JString (id k)); ("name", JString (name k));
           ("description", JString (description k));
           ("query_template", JString (query_template k));
           ("category", JString (category k))].

(** [v.k] for one of the five suggestion fields: objects are looked up,
    [null] raises, every other value has no such property. *)
Definition member (v : JSON) (k : string) : Completion (option JSON) :=
  match v with
  | JNull => Throw (TypeError "Cannot read properties of null")
  | JObject o => Return (get o k)
  | _ => Return None
  end.

Definition truthy (v : option JSON) : bool :=
  match v with
  | None | Some JNull => false
  | Some (JBool b) => b
  | Some (JNumber n) => negb (n =? 0)%Z
  | Some (JString s) => negb (String.eqb s "")
  | Some (JArray _) | Some (JObject _) => true
  end.

Definition hasField (v : JSON) (k : string) : bool :=
  match member v k with
  | Return x => truthy x
  | Throw _ => false
  end.

(** The callback of [suggestions.filter(...)]. *)
Definition isComplete (suggestion : JSON) : Completion bool :=
  match suggestion with
  | JNull => Throw (TypeError "Cannot read properties of null")
  | _ =>
      Return (hasField suggestion "id" && hasField suggestion "name"
              && hasField suggestion "description"
              && hasField suggestion "query_template"
              && hasField suggestion "category")
  end.

(** A suggestion the callback keeps. *)
Definition complete (v : JSON) : Prop := isComplete v = Return true.

Fixpoint Array_filter (f : JSON -> Completion bool) (l : list JSON)
  : Completion (list JSON) :=
  match l with
  | [] => Return []
  | x :: l' =>
      match f x with
      | Throw e => Throw e
      | Return keep =>
          match Array_filter f l' with
          | Throw e => Throw e
          | Return r => Return (if keep then x :: r else r)
          end
      end
  end.

Definition bank : list KPISuggestion :=
  [ {| id := "loan_approval_rate"; name := "Loan Approval Rate";
       description := "Percentage of approved loans versus total applications";
       query_template := "What is the loan approval rate for the last 6 months?";
       category := "Operational" |};
    {| id := "account_growth"; name := "Account Growth";
       description := "Rate of new account openings over time";
       query_template := "Show me the trend in new account openings";
       category := "Growth" |};
    {| id := "transaction_volume"; name := "Transaction Volume";
       description := "Total transaction amounts processed";
       query_template := "What is the daily transaction volume?";
       category := "Operational" |} ].

Definition finance : list KPISuggestion :=
  [ {| id := "revenue_growth"; name := "Revenue Growth";
       description := "Revenue growth rate over time periods";
       query_template := "Show me quarterly revenue growth";
       category := "Financial" |};
    {| id := "profit_margins"; name := "Profit Margins";
       description := "Profit margin analysis by product or service";
       query_template := "What are the profit margins by product category?";
       category := "Financial" |};
    {| id := "client_portfolio_value"; name := "Client Portfolio Value";
       description := "Total value of client portfolios";
       query_template := "Show me client portfolio value distributions";
       category := "Financial" |} ].

Definition ithr : list KPISuggestion :=
  [ {| id := "employee_turnover"; name := "Employee Turnover Rate";
       description := "Employee turnover rate by department";
       query_template := "What is the employee turnover rate by department?";
       category := "HR Metrics" |};
    {| id := "hiring_metrics"; name := "Hiring Efficiency";
       description := "Time to hire and hiring success rates";
       query_template := "Show me average time to hire by position level";
       category := "HR Metrics" |};
    {| id := "performance_ratings"; name := "Performance Ratings";
       description := "Employee performance rating distributions";
       query_template := "What are the performance rating trends?";
       category := "Performance" |} ].

Definition fallbackSuggestions : Obj (list KPISuggestion) :=
  [("bank", bank); ("finance", finance); ("ithr", ithr)].

(** The entry of the table a sector selects, [finance] for a sector the
    table does not list. *)
Definition fixedSuggestions (sector : string) : list KPISuggestion :=
  match get fallbackSuggestions sector with
  | Some l => l
  | None => finance
  end.

(** What [generateKPISuggestions] resolves to: an array, or, when the sector
    names a member the table inherits, that member. *)
Inductive Suggested : Type :=
| Suggestions (suggestions : list JSON)
| Member (inherited : Inherited).

(** [fallbackSuggestions[sector] || fallbackSuggestions.finance]: the read
    finds an own entry, else a member inherited from [Object.prototype]
    (every one of them truthy), else nothing. [polluted] tells whether
    [Object.prototype.isActive] has been set in this process. *)
Definition getFallbackSuggestions (polluted : bool) (sector : string) : Suggested :=
  match get fallbackSuggestions sector with
  | Some l => Suggestions (map toObject l)
  | None =>
      match inherited polluted sector with
      | Some i => Member i
      | None => Suggestions (map toObject finance)
      end
  end.

Section Suggester.
(** [JSON.parse]; [None] stands for its [SyntaxError]. *)
Variable JSON_parse : string -> option JSON.
Variable polluted : bool.

Definition generateKPISuggestions (ai : Generated) (schema : Schema)
    (sector : string) : Suggested :=
  match ai with
  | Rejected => getFallbackSuggestions polluted sector
  | Response None => getFallbackSuggestions polluted sector
  | Response (Some rawJson) =>
      if String.eqb rawJson "" then getFallbackSuggestions polluted sector
      else match JSON_parse rawJson with
           | Some (JArray suggestions) =>
               match Array_filter isComplete suggestions with
               | Return kept => Suggestions (slice0 8 kept)
               | Throw _ => getFallbackSuggestions polluted sector
               end
           | Some _ => getFallbackSuggestions polluted sector
           | None => getFallbackSuggestions polluted sector
           end
  end.
End Suggester.

(** The replies after which [generateKPISuggestions] goes to
    [getFallbackSuggestions]: the call rejected, no text or empty text, text
    that is not JSON, JSON that is not an array, and an array with a [null]
    element (on which the filter callback throws). *)
Definition fallsBack (JSON_parse : string -> option JSON) (ai : Generated) : Prop :=
  ai = Rejected \/ ai = Response None \/ ai = Response (Some "") \/
  exists rawJson, ai = Response (Some rawJson) /\
    (JSON_parse rawJson = None \/
     (exists v, JSON_parse rawJson = Some v /\ forall l, v <> JArray l) \/
     (exists l, JSON_parse rawJson = Some (JArray l) /\ In JNull l)).

(** A character the class [[^S]] accepts. *)
Definition notS (c : ascii) : bool := negb (isS c).

End Gemini.

(** ** The demo route helpers *)
Module Routes.
Import JS.

(** The schema the [/api/connect-db] route stores for a session. *)
Definition column (t : string) (n : bool) : Gemini.ColumnInfo :=
  {| Gemini.type := t; Gemini.nullable := n; Gemini.column_default := None |}.

Definition sessionSchema : Gemini.Schema :=
  {| Gemini.tables :=
       Some [ ("employees",
               {| Gemini.columns :=
                    Some [ ("id", column "integer" false);
                           ("name", column "varchar" false);
                           ("department", column "varchar" true);
                           ("salary", column "numeric" true);
                           ("hire_date", column "date" true) ] |});
              ("departments",
               {| Gemini.columns :=
                    Some [ ("id", column "integer" false);
                           ("name", column "varchar" false);
                           ("budget", column "numeric" true) ] |});
              ("transactions",
               {| Gemini.columns :=
                    Some [ ("id", column "integer" false);
                           ("amount", column "numeric" false);
                           ("transaction_date", column "timestamp" false);
                           ("account_id", column "integer" false);
                           ("type", column "varchar" false) ] |}) ] |}.

Inductive Value : Type :=
| VString (s : string)
| VNumber (n : Z).

Inductive ChartType : Type := bar | line | pie.

Record ChartData : Type := {
  type : ChartType;
  data : list (Obj Value);
  xAxis : string;
  yAxis : string
}.

(** [execution_time] is kept in hundredths of a second. *)
Record Results : Type := {
  table_data : list (Obj Value);
  chart_data : ChartData;
  columns : list string;
  row_count : Z;
  execution_time : Z
}.

Definition SQL_SALARY : string :=
  "SELECT department, AVG(salary) as avg_salary, COUNT(*) as employee_count FROM employees GROUP BY department ORDER BY avg_salary DESC LIMIT 10;".
Definition SQL_TRANSACTIONS : string :=
  "SELECT DATE(transaction_date) as date, SUM(amount) as total_amount, COUNT(*) as transaction_count FROM transactions WHERE transaction_date >= NOW() - INTERVAL '30 days' GROUP BY DATE(transaction_date) ORDER BY date;".
Definition SQL_DEPARTMENTS : string :=
  "SELECT department, COUNT(*) as employee_count FROM employees GROUP BY department ORDER BY employee_count DESC;".
Definition SQL_DEFAULT : string := "SELECT * FROM employees LIMIT 10;".

Definition generateMockSQL (query sector : string) : string :=
  let lowerQuery := toLowerCase query in
  if includes lowerQuery "salary" || includes lowerQuery "employee" then SQL_SALARY
  else if includes lowerQuery "transaction" || includes lowerQuery "volume" then SQL_TRANSACTIONS
  else if includes lowerQuery "department" || includes lowerQuery "count" then SQL_DEPARTMENTS
  else SQL_DEFAULT.

Definition salaryRow (d : string) (avg n : Z) : Obj Value :=
  [("department", VString d); ("avg_salary", VNumber avg); ("employee_count", VNumber n)].
Definition salaryPoint (d : string) (avg : Z) : Obj Value :=
  [("department", VString d); ("avg_salary", VNumber avg)].
Definition dayRow (d : string) (total n : Z) : Obj Value :=
  [("date", VString d); ("total_amount", VNumber total); ("transaction_count", VNumber n)].
Definition dayPoint (d : string) (total : Z) : Obj Value :=
  [("date", VString d); ("total_amount", VNumber total)].
Definition headRow (d : string) (n : Z) : Obj Value :=
  [("department", VString d); ("employee_count", VNumber n)].
Definition personRow (i : Z) (n d : string) (s : Z) : Obj Value :=
  [("id", VNumber i); ("name", VString n); ("department", VString d); ("salary", VNumber s)].
Definition personPoint (n : string) (s : Z) : Obj Value :=
  [("name", VString n); ("salary", VNumber s)].

Definition generateMockResults (query sector : string) : Results :=
  let lowerQuery := toLowerCase query in
  if includes lowerQuery "salary" || includes lowerQuery "employee" then
    {| table_data :=
         [ salaryRow "Engineering" 95000 25; salaryRow "Sales" 75000 18;
           salaryRow "Marketing" 68000 12; salaryRow "HR" 62000 8;
           salaryRow "Finance" 78000 10 ];
       chart_data :=
         {| type := bar;
            data := [ salaryPoint "Engineering" 95000; salaryPoint "Sales" 75000;
                      salaryPoint "Marketing" 68000; salaryPoint "HR" 62000;
                      salaryPoint "Finance" 78000 ];
            xAxis := "department"; yAxis := "avg_salary" |};
       columns := ["department"; "avg_salary"; "employee_count"];
       row_count := 5;
       execution_time := 15 |}
  else if includes lowerQuery "transaction" || includes lowerQuery "volume" then
    {| table_data :=
         [ dayRow "2024-01-15" 125000 45; dayRow "2024-01-16" 138000 52;
           dayRow "2024-01-17" 142000 48; dayRow "2024-01-18" 159000 61;
           dayRow "2024-01-19" 134000 43 ];
       chart_data :=
         {| type := line;
            data := [ dayPoint "2024-01-15" 125000; dayPoint "2024-01-16" 138000;
                      dayPoint "2024-01-17" 142000; dayPoint "2024-01-18" 159000;
                      dayPoint "2024-01-19" 134000 ];
            xAxis := "date"; yAxis := "total_amount" |};
       columns := ["date"; "total_amount"; "transaction_count"];
       row_count := 5;
       execution_time := 12 |}
  else if includes lowerQuery "department" || includes lowerQuery "count" then
    {| table_data :=
         [ headRow "Engineering" 25; headRow "Sales" 18; headRow "Marketing" 12;
           headRow "Finance" 10; headRow "HR" 8 ];
       chart_data :=
         {| type := pie;
            data := [ headRow "Engineering" 25; headRow "Sales" 18;
                      headRow "Marketing" 12; headRow "Finance" 10; headRow "HR" 8 ];
            xAxis := "department"; yAxis := "employee_count" |};
       columns := ["department"; "employee_count"];
       row_count := 5;
       execution_time := 8 |}
  else
    {| table_data :=
         [ personRow 1 "John Doe" "Engineering" 95000;
           personRow 2 "Jane Smith" "Sales" 75000;
           personRow 3 "Bob Johnson" "Marketing" 68000 ];
       chart_data :=
         {| type := bar;
            data := [ personPoint "John Doe" 95000; personPoint "Jane Smith" 75000;
                      personPoint "Bob Johnson" 68000 ];
            xAxis := "name"; yAxis := "salary" |};
       columns := ["id"; "name"; "department"; "salary"];
       row_count := 3;
       execution_time := 5 |}.

(** The entries of a row under the given keys, in the row's order. *)
Definition project (keys : list string) (row : Obj Value) : Obj Value :=
  List.filter (fun entry => Array_includes keys (fst entry)) row.

(** The route file's own suggestion list, by sector. *)
Record Suggestion : Type := {
  id : string;
  name : string;
  description : string;
  query_template : string
}.

Definition generateKPISuggestions (sector : string) : list Suggestion :=
  if String.eqb sector "bank" then
    [ {| id := "account_balance"; name := "Account Balances";
         description := "Total account balances by type";
         query_template := "Show me account balances by account type" |};
      {| id := "transaction_volume"; name := "Transaction Volume";
         description := "Daily transaction volumes";
         query_template := "Show me daily transaction volumes for the last month" |};
      {| id := "loan_performance"; name := "Loan Performance";
         description := "Loan approval rates and amounts";
         query_template := "What's the loan approval rate this quarter?" |} ]
  else if String.eqb sector "finance" then
    [ {| id := "revenue_trends"; name := "Revenue Trends";
         description := "Revenue trends over time";
         query_template := "Show me quarterly revenue trends" |};
      {| id := "client_portfolio"; name := "Client Portfolio";
         description := "Client portfolio values";
         query_template := "Show me client portfolio distribution" |};
      {| id := "profit_margins"; name := "Profit Margins";
         description := "Profit margins by service";
         query_template := "What are the profit margins by service type?" |} ]
  else if String.eqb sector "ithr" then
    [ {| id := "employee_count"; name := "Employee Count";
         description := "Employee headcount by department";
         query_template := "Show me employee count by department" |};
      {| id := "salary_analysis"; name := "Salary Analysis";
         description := "Average salary by role";
         query_template := "What's the average salary by job title?" |};
      {| id := "performance_ratings"; name := "Performance Ratings";
         description := "Employee performance distribution";
         query_template := "Show me performance rating distributions" |} ]
  else [].

End Routes.

(** ** The connection registry *)
Module DatabaseConfigService.
Import JS.

Record ConnectionParams : Type := {
  host : string;
  port : Z;
  database : string;
  username : string;
  password : string
}.

(** What [extractSchema] returns (its [rawTables] copy of the same catalog
    rows is left out). *)
Record SchemaSnapshot : Type := {
  tables : Obj Gemini.TableInfo;
  extractedAt : string;
  totalTables : Z
}.

(** [{...connectionParams, type, isActive, schema, lastConnected}]. *)
Record DatabaseConnection : Type := {
  params : ConnectionParams;
  type : string;
  isActive : bool;
  schema : option SchemaSnapshot;
  lastConnected : option string
}.

(** [connections] holds the own entries of the object: what [Object.keys]
    enumerates and [JSON.stringify] writes. *)
Record DatabaseConfig : Type := {
  currentConnection : option string;
  connections : gmap string DatabaseConnection
}.

(** What a keyed read of [connections] can find besides: the record that
    [connections["__proto__"] = record] has put in place of the object's
    prototype, and the property [isActive] of [Object.prototype] once
    [connections["__proto__"].isActive = true] has set it. *)
Record Heap : Type := {
  prototype : option DatabaseConnection;
  polluted : bool
}.

Definition pristine : Heap := {| prototype := None; polluted := false |}.

(** The service object, the file at [CONFIG_PATH] ([None]: no readable
    configuration there) and the prototype chain of [connections]. *)
Record Service : Type := {
  config : DatabaseConfig;
  file : option DatabaseConfig;
  heap : Heap
}.

(** What the outside answers during one call: the liveness probe, the
    catalog queries, the clock and the file system. *)
Record World : Type := {
  connects : bool;
  catalog : option SchemaSnapshot;
  now : string;
  writable : bool
}.

(** Methods run on the service, may throw, and keep what they had written
    when they do. *)
Definition M (A : Type) : Type := Service -> Completion A * Service.

#[global] Instance M_ret : MRet M := fun A a s => (Return a, s).
#[global] Instance M_bind : MBind M := fun A B k m s =>
  match m s with
  | (Return a, s') => k a s'
  | (Throw e, s') => (Throw e, s')
  end.

#[global] Instance M_fmap : FMap M := fun A B f m s =>
  match m s with
  | (Return a, s') => (Return (f a), s')
  | (Throw e, s') => (Throw e, s')
  end.

Definition throw {A : Type} (e : Thrown) : M A := fun s => (Throw e, s).

Definition catch {A : Type} (m : M A) (handler : Thrown -> M A) : M A := fun s =>
  match m s with
  | (Throw e, s') => handler e s'
  | r => r
  end.

Definition getConfig : M DatabaseConfig := fun s => (Return (config s), s).

Definition setConfig (c : DatabaseConfig) : M unit := fun s =>
  (Return tt, {| config := c; file := file s; heap := heap s |}).

Definition getHeap : M Heap := fun s => (Return (heap s), s).

Definition setHeap (h : Heap) : M unit := fun s =>
  (Return tt, {| config := config s; file := file s; heap := h |}).

Definition SAVE_FAILED : string := "Could not save database configuration".
Definition CONNECT_FAILED : string :=
  "Failed to connect to database with provided credentials".
Definition EXTRACT_FAILED : string := "Failed to extract database schema".

Definition defaultConnection : DatabaseConnection :=
  {| params := {| host := "localhost"; port := 5432; database := "postgres";
                  username := "postgres"; password := "" |};
     type := "postgresql";
     isActive := false;
     schema := None;
     lastConnected := None |}.

Definition defaultConfig : DatabaseConfig :=
  {| currentConnection := None;
     connections := {[ "default" := defaultConnection ]} |}.

Definition saveConfig (w : World) : M unit := fun s =>
  if writable w
  then (Return tt, {| config := config s; file := Some (config s); heap := heap s |})
  else (Throw (Error SAVE_FAILED), s).

(** The constructor in a new process: [loadConfig] on a fresh object. *)
Definition loadConfig (w : World) (onDisk : option DatabaseConfig) : Completion Service :=
  match onDisk with
  | Some c => Return {| config := c; file := onDisk; heap := pristine |}
  | None =>
      match saveConfig w {| config := defaultConfig; file := onDisk; heap := pristine |} with
      | (Return _, s) => Return s
      | (Throw e, _) => Throw e
      end
  end.

Definition testConnection (w : World) (connectionParams : ConnectionParams) : M bool :=
  mret (connects w).

Definition extractSchema (w : World) (connectionParams : ConnectionParams)
  : M SchemaSnapshot :=
  match catalog w with
  | Some snapshot => mret snapshot
  | None => throw (Error EXTRACT_FAILED)
  end.

Definition setIsActive (b : bool) (c : DatabaseConnection) : DatabaseConnection :=
  {| params := params c; type := type c; isActive := b;
     schema := schema c; lastConnected := lastConnected c |}.

(** [Object.keys(connections).forEach(key => connections[key].isActive = false)]. *)
Definition deactivateAll (m : gmap string DatabaseConnection)
  : gmap string DatabaseConnection := setIsActive false <$> m.

(** *** Keyed reads and writes of [connections] *)

(** What [connections[id]] can evaluate to. *)
Inductive Value : Type :=
| Record (r : DatabaseConnection)
| SchemaObject (snapshot : SchemaSnapshot)
| Text (s : string)
| Number (n : Z)
| Boolean (b : bool)
| Null
| Undefined
| Member (i : Inherited).

Definition truthy (v : Value) : bool :=
  match v with
  | Record _ | SchemaObject _ | Member _ => true
  | Text s => negb (String.eqb s "")
  | Number n => negb (n =? 0)%Z
  | Boolean b => b
  | Null | Undefined => false
  end.

(** Whether a truthy value can take a property: the assignment
    [v.isActive = true] throws on a primitive in the strict code of a class
    body. *)
Definition isObject (v : Value) : bool :=
  match v with
  | Record _ | SchemaObject _ | Member (Builtin _) | Member ObjectPrototype => true
  | _ => false
  end.

(** The own properties of a stored record. *)
Definition field (r : DatabaseConnection) (k : string) : option Value :=
  if String.eqb k "host" then Some (Text (host (params r)))
  else if String.eqb k "port" then Some (Number (port (params r)))
  else if String.eqb k "database" then Some (Text (database (params r)))
  else if String.eqb k "username" then Some (Text (username (params r)))
  else if String.eqb k "password" then Some (Text (password (params r)))
  else if String.eqb k "type" then Some (Text (type r))
  else if String.eqb k "isActive" then Some (Boolean (isActive r))
  else if String.eqb k "schema"
       then Some (match schema r with Some snapshot => SchemaObject snapshot | None => Null end)
  else if String.eqb k "lastConnected"
       then Some (match lastConnected r with Some t => Text t | None => Null end)
  else None.

(** What the prototype chain of [connections] has under a key: the
    accessor [__proto__] gives the prototype, which is the record put there or
    [Object.prototype]; a record put there gives its fields; past it come the
    members of [Object.prototype]. *)
Definition readInherited (h : Heap) (id : string) : Value :=
  match prototype h with
  | Some p =>
      if String.eqb id "__proto__" then Record p
      else
        match field p id with
        | Some v => v
        | None =>
            match inherited (polluted h) id with
            | Some i => Member i
            | None => Undefined
            end
        end
  | None =>
      match inherited (polluted h) id with
      | Some i => Member i
      | None => Undefined
      end
  end.

(** [this.config.connections[id]]: the own entry, else what the prototype
    chain has under that key. *)
Definition read (s : Service) (id : string) : Value :=
  match connections (config s) !! id with
  | Some r => Record r
  | None => readInherited (heap s) id
  end.

Definition readConnection (id : string) : M Value := fun s => (Return (read s id), s).

(** [this.config.connections[id] = record]: the key ["__proto__"], unless
    it is an own entry, goes to the accessor of [Object.prototype] and
    replaces the prototype; every other key becomes or stays an own entry. *)
Definition writeConnection (id : string) (record : DatabaseConnection) : M unit :=
  c ← getConfig;
  if String.eqb id "__proto__" && bool_decide (connections c !! id = None)
  then h ← getHeap; setHeap {| prototype := Some record; polluted := polluted h |}
  else setConfig {| currentConnection := currentConnection c;
                    connections := <[id := record]> (connections c) |}.

Definition CANNOT_SET : string := "Cannot set properties of undefined (setting 'isActive')".
Definition CANNOT_CREATE : string := "Cannot create property 'isActive' on a primitive value".

(** [found.isActive = true] for a value found on the prototype chain: the
    record serving as prototype becomes active; on [Object.prototype] the
    property is created, and every object inherits it from then on; on a
    built-in function or a schema snapshot it is a new property that the
    registry never reads; on [undefined], [null] or a primitive the
    assignment throws (class bodies are strict code). *)
Definition touch (h : Heap) (found : Value) : Completion Heap :=
  match found with
  | Record p => Return {| prototype := Some (setIsActive true p); polluted := polluted h |}
  | Member ObjectPrototype => Return {| prototype := prototype h; polluted := true |}
  | Member (Builtin _) | SchemaObject _ => Return h
  | Null | Undefined => Throw (TypeError CANNOT_SET)
  | Text _ | Number _ | Boolean _ | Member IsActiveTrue => Throw (TypeError CANNOT_CREATE)
  end.

(** [this.config.connections[id].isActive = true]. *)
Definition activate (id : string) : M unit :=
  c ← getConfig;
  match connections c !! id with
  | Some _ =>
      setConfig {| currentConnection := currentConnection c;
                   connections := alter (setIsActive true) id (connections c) |}
  | None =>
      h ← getHeap;
      match touch h (readInherited h id) with
      | Return h' => setHeap h'
      | Throw e => throw e
      end
  end.

(** [Object.keys(connections).forEach(key => connections[key].isActive = false)]
    in place. *)
Definition deactivateConnections : M unit :=
  c ← getConfig;
  setConfig {| currentConnection := currentConnection c;
               connections := deactivateAll (connections c) |}.

Definition setCurrentConnection (id : string) : M unit :=
  c ← getConfig;
  setConfig {| currentConnection := Some id; connections := connections c |}.

Definition deleteConnection (id : string) : M unit :=
  c ← getConfig;
  setConfig {| currentConnection := currentConnection c;
               connections := delete id (connections c) |}.

Record AddResult : Type := {
  success : bool;
  resultSchema : option SchemaSnapshot;
  error : option string
}.

Definition addConnection (w : World) (connectionId : string)
    (connectionParams : ConnectionParams) : M AddResult :=
  catch
    (isValid ← testConnection w connectionParams;
     if negb isValid
     then mret {| success := false; resultSchema := None; error := Some CONNECT_FAILED |}
     else
       schema ← extractSchema w connectionParams;
       deactivateConnections;;
       writeConnection connectionId
         {| params := connectionParams;
            type := "postgresql";
            isActive := true;
            schema := Some schema;
            lastConnected := Some (now w) |};;
       setCurrentConnection connectionId;;
       saveConfig w;;
       mret {| success := true; resultSchema := Some schema; error := None |})
    (fun e => mret {| success := false; resultSchema := None; error := Some (message e) |}).

Definition getCurrentConnection : M (option Value) :=
  c ← getConfig;
  match currentConnection c with
  | None => mret None
  | Some id =>
      if String.eqb id "" then mret None
      else
        found ← readConnection id;
        mret (if truthy found then Some found else None)
  end.

Definition setActiveConnection (w : World) (connectionId : string) : M bool :=
  found ← readConnection connectionId;
  if negb (truthy found) then mret false
  else
    deactivateConnections;;
    activate connectionId;;
    setCurrentConnection connectionId;;
    saveConfig w;;
    mret true.

Definition removeConnection (w : World) (connectionId : string) : M bool :=
  found ← readConnection connectionId;
  if negb (truthy found) || String.eqb connectionId "default" then mret false
  else
    c ← getConfig;
    deleteConnection connectionId;;
    (if bool_decide (currentConnection c = Some connectionId)
     then setCurrentConnection "default";; activate "default"
     else mret tt);;
    saveConfig w;;
    mret true.

(** The calls that change the registry, as the routes issue them. *)
Inductive Request : Type :=
| AddConnection (connectionId : string) (connectionParams : ConnectionParams)
| SetActiveConnection (connectionId : string)
| RemoveConnection (connectionId : string).

Inductive Reply : Type :=
| Added (r : AddResult)
| Answered (b : bool).

Definition handle (w : World) (r : Request) : M Reply :=
  match r with
  | AddConnection connectionId connectionParams =>
      Added <$> addConnection w connectionId connectionParams
  | SetActiveConnection connectionId => Answered <$> setActiveConnection w connectionId
  | RemoveConnection connectionId => Answered <$> removeConnection w connectionId
  end.

(** *** The registry invariant and the states the service can be in *)

Definition atMostOneActive (c : DatabaseConfig) : Prop :=
  forall id1 id2 r1 r2,
    connections c !! id1 = Some r1 -> connections c !! id2 = Some r2 ->
    isActive r1 = true -> isActive r2 = true -> id1 = id2.

Definition hasDefault (c : DatabaseConfig) : Prop :=
  is_Some (connections c !! "default").

Definition registryInvariant (c : DatabaseConfig) : Prop :=
  atMostOneActive c /\ hasDefault c.

(** The service starts from an absent configuration file, and from then on
    is restarted, in a new process, on the file it wrote, or handles a
    request. *)
Inductive reachable : Service -> Prop :=
| reachable_start (w : World) (s : Service) :
    loadConfig w None = Return s -> reachable s
| reachable_restart (w : World) (s s' : Service) :
    reachable s -> loadConfig w (file s) = Return s' -> reachable s'
| reachable_handle (w : World) (r : Request) (s : Service) :
    reachable s -> reachable (snd (handle w r s)).

(** How a call reports that it did not go through: [addConnection] by its
    result, the other two by throwing. *)
Definition reportsError (message : string) (outcome : Completion Reply) : Prop :=
  outcome = Throw (Error message) \/
  outcome = Return (Added {| success := false; resultSchema := None;
                             error := Some message |}).

Definition succeeded (outcome : Completion Reply) : bool :=
  match outcome with
  | Return (Added r) => success r
  | Return (Answered b) => b
  | Throw _ => false
  end.

Definition withWritable (b : bool) (w : World) : World :=
  {| connects := connects w; catalog := catalog w; now := now w; writable := b |}.

(** Every active record is the one [currentConnection] names. *)
Definition activeIsCurrent (c : DatabaseConfig) : Prop :=
  forall id r,
    connections c !! id = Some r -> isActive r = true -> currentConnection c = Some id.

Definition consistent (c : DatabaseConfig) : Prop :=
  activeIsCurrent c /\ hasDefault c.

Definition sound (s : Service) : Prop :=
  consistent (config s) /\ forall c, file s = Some c -> consistent c.

(** The service right after its first start. *)
Definition fresh : Service :=
  {| config := defaultConfig; file := Some defaultConfig; heap := pristine |}.

Definition offline : World :=
  {| connects := false; catalog := None; now := ""; writable := true |}.

(** *** Reading the registry *)

(** [current?.schema || null]: a record gives its schema; nothing else
    [getCurrentConnection] can answer has a truthy [schema]. *)
Definition getConnectionSchema : M (option SchemaSnapshot) :=
  current ← getCurrentConnection;
  mret (match current with
        | Some (Record r) => schema r
        | _ => None
        end).

Definition getAllConnections : M (gmap string DatabaseConnection) :=
  c ← getConfig;
  mret (connections c).

(** An id under which a keyed read of [connections] finds a primitive. *)
Definition namesPrimitive (s : Service) (id : string) : Prop :=
  connections (config s) !! id = None /\
  truthy (read s id) = true /\ isObject (read s id) = false.

(** A registry on which an earlier save has failed: "default" is active in
    memory and inactive on file. *)
Definition unsaved : Service :=
  {| config := {| currentConnection := Some "default";
                  connections := {[ "default" := setIsActive true defaultConnection ]} |};
     file := Some defaultConfig;
     heap := pristine |}.

(** A registry in which [currentConnection] names an inactive record while
    another record is active. *)
Definition untracked : Service :=
  let c := {| currentConnection := Some "a";
              connections := <["b" := setIsActive true defaultConnection]>
                               (<["a" := defaultConnection]>
                                  {[ "default" := defaultConnection ]}) |} in
  {| config := c; file := Some c; heap := pristine |}.

(** An outside where the database answers with an empty catalog. *)
Definition online : World :=
  {| connects := true;
     catalog := Some {| tables := []; extractedAt := "t0"; totalTables := 0 |};
     now := "t1"; writable := true |}.

Definition someParams : ConnectionParams :=
  {| host := "h"; port := 5432; database := "d"; username := "u"; password := "p" |}.

(** The record [addConnection] stores. *)
Definition connected (w : World) (connectionParams : ConnectionParams)
    (snapshot : SchemaSnapshot) : DatabaseConnection :=
  {| params := connectionParams; type := "postgresql"; isActive := true;
     schema := Some snapshot; lastConnected := Some (now w) |}.

(** *** Formatting the catalog rows (the second half of [extractSchema]) *)

(** A row of [information_schema.columns] (the length, precision and scale
    columns only reach [rawTables]). *)
Record ColumnRow : Type := {
  column_name : string;
  data_type : string;
  is_nullable : string;
  column_default : option string
}.

(** A row of [information_schema.tables] with the column rows fetched for it. *)
Record TableRows : Type := {
  table_name : string;
  table_schema : string;
  column_rows : list ColumnRow
}.

Definition formatColumn (col : ColumnRow) : Gemini.ColumnInfo :=
  {| Gemini.type := data_type col;
     Gemini.nullable := String.eqb (is_nullable col) "YES";
     Gemini.column_default := column_default col |}.

Definition formatTable (table : TableRows) : Gemini.TableInfo :=
  {| Gemini.columns := Some (assignAll column_name formatColumn (column_rows table) []) |}.

Definition formatSchema (catalogRows : list TableRows) (now : string) : SchemaSnapshot :=
  {| tables := assignAll table_name formatTable catalogRows [];
     extractedAt := now;
     totalTables := Z.of_nat (length catalogRows) |}.

(** The snapshot as the translator's schema argument. *)
Definition asSchema (snapshot : SchemaSnapshot) : Gemini.Schema :=
  {| Gemini.tables := Some (tables snapshot) |}.

End DatabaseConfigService.

(** ** The route handlers *)
Module Api.
Import JS.

(** What [authenticateToken] leaves in [req.user]: the token's payload. *)
Record User : Type := {
  username : string;
  user_sector : string;
  user_role : string
}.

Record Account : Type := {
  password : string;
  sector : string;
  role : string
}.

Definition ADMIN_ACCOUNTS : Obj Account :=
  [ ("admin@bank", {| password := "bank123"; sector := "bank"; role := "admin" |});
    ("admin@finance", {| password := "finance123"; sector := "finance"; role := "admin" |});
    ("admin@ithr", {| password := "ithr123"; sector := "ithr"; role := "admin" |}) ].


(** The JSON bodies the handlers send. *)
Inductive Body : Type :=
| Message (message : string)
| LoggedIn (access_token : string) (user : User)
| Connected (schema : Gemini.Schema) (suggested_kpis : list Routes.Suggestion)
| SchemaIs (schema : Gemini.Schema)
| Answer (query sql_query : string) (results : Routes.Results)
| LoggedOut.

Record Response : Type := {
  status : Z;
  body : Body
}.

Definition ok (b : Body) : Response := {| status := 200; body := b |}.
Definition failure (code : Z) (message : string) : Response :=
  {| status := code; body := Message message |}.

Section Login.
(** [jwt.sign] with the server's secret. *)
Variable sign : User -> string.

(** [POST /api/login]; the body is [None] when [loginSchema.parse] rejects it. *)
Definition login (requestBody : option (string * string)) : Response :=
  match requestBody with
  | None => failure 400 "Invalid request"
  | Some (username, password') =>
      match get ADMIN_ACCOUNTS username with
      | None => failure 401 "Invalid credentials"
      | Some account =>
          if negb (String.eqb (password account) password')
          then failure 401 "Invalid credentials"
          else
            let user := {| username := username; user_sector := sector account;
                           user_role := role account |} in
            ok (LoggedIn (sign user) user)
      end
  end.
End Login.










End Api.

(** * Properties *)

(** ** Strings *)
Module JSFacts.
Import JS.

Lemma prefix_toLowerCase (p s : string) :
  String.prefix p s = true ->
  String.prefix (toLowerCase p) (toLowerCase s) = true.
Proof.
  revert s; induction p as [|a p IH]; intros s H; [destruct s; reflexivity|].
  destruct s as [|b s]; simpl in *; [discriminate|].
  destruct (ascii_dec a b) as [->|]; [|discriminate].
  destruct (ascii_dec (lowerChar b) (lowerChar b)); [auto|congruence].
Qed.

(** A question that contains a word still contains its lower-case form
    once the question is lower-cased. *)
Lemma includes_toLowerCase (s sub : string) :
  includes s sub = true ->
  includes (toLowerCase s) (toLowerCase sub) = true.
Proof.
  induction s as [|c s IH]; cbn [includes toLowerCase]; unfold startsWith;
    intros H; apply orb_true_iff in H as [H|H].
  - apply prefix_toLowerCase in H. cbn [toLowerCase] in H. rewrite H. reflexivity.
  - discriminate.
  - apply prefix_toLowerCase in H. cbn [toLowerCase] in H. rewrite H. reflexivity.
  - fold (startsWith (String (lowerChar c) (toLowerCase s)) (toLowerCase sub)).
    rewrite (IH H). apply orb_true_r.
Qed.

Lemma Array_includes_In (l : list string) (x : string) :
  Array_includes l x = true <-> In x l.
Proof.
  induction l as [|y l IH]; simpl; [split; [discriminate|tauto]|].
  rewrite orb_true_iff, IH, String.eqb_eq. tauto.
Qed.

Lemma In_slice0 {A : Type} (n : nat) (l : list A) (x : A) :
  In x (slice0 n l) -> In x l.
Proof.
  unfold slice0. revert l; induction n as [|n IH]; intros [|y l]; simpl; try tauto.
  intros [->|H]; auto.
Qed.

End JSFacts.

(** ** The demo route helpers *)
Module RoutesFacts.
Import JS Routes.

Ltac branches :=
  repeat match goal with
         | |- context [if ?b then _ else _] => destruct b
         end.

(** C8: in every envelope [generateMockResults] builds, [row_count] is the
    number of rows of [table_data], and every key of every point of the
    chart series is one of [columns]. *)
Theorem generateMockResults_consistent (query sector : string) :
  let r := generateMockResults query sector in
  row_count r = Z.of_nat (length (table_data r)) /\
  forall point key,
    In point (data (chart_data r)) -> In key (Object_keys point) -> In key (columns r).
Proof.
  unfold generateMockResults; branches; (split; [reflexivity|]);
    intros point key Hp Hk; simpl in Hp;
    repeat (destruct Hp as [<-|Hp]; [simpl in Hk |- *; tauto|]);
    destruct Hp.
Qed.

Lemma generateMockResults_consistent_witness :
  row_count (generateMockResults "average salary" "ithr") = 5%Z /\
  In "avg_salary" (columns (generateMockResults "average salary" "ithr")).
Proof.
  destruct (generateMockResults_consistent "average salary" "ithr") as [H1 H2].
  split; [exact H1|].
  apply (H2 (salaryPoint "Sales" 75000) "avg_salary"); simpl; tauto.
Defined.

(** C9: a question containing "salary" gets the aggregate query grouped by
    department, and the chart of its envelope is a bar chart. *)
Theorem salary_question_bar_chart (query sector : string) :
  includes query "salary" = true ->
  generateMockSQL query sector = SQL_SALARY /\
  includes (generateMockSQL query sector) "GROUP BY department" = true /\
  includes (generateMockSQL query sector) "AVG(salary)" = true /\
  type (chart_data (generateMockResults query sector)) = bar.
Proof.
  intros H. apply JSFacts.includes_toLowerCase in H. simpl toLowerCase in H.
  change (String (lowerChar "s") _) with "salary" in H.
  unfold generateMockSQL, generateMockResults. rewrite H. simpl.
  repeat split; reflexivity.
Qed.

Lemma salary_question_bar_chart_witness :
  includes "What is the average salary?" "salary" = true /\
  generateMockSQL "What is the average salary?" "ithr" = SQL_SALARY /\
  type (chart_data (generateMockResults "What is the average salary?" "ithr")) = bar.
Proof.
  assert (H : includes "What is the average salary?" "salary" = true).
  2: { split; [exact H|].
       destruct (salary_question_bar_chart "What is the average salary?" "ithr" H)
         as (H1 & _ & _ & H2). split; [exact H1|exact H2]. }
  vm_compute. reflexivity.
Defined.

End RoutesFacts.

(** ** The translator and the suggester *)
Module GeminiFacts.
Import JS Gemini.

Lemma get_head {A : Type} (o : Obj A) (k : string) (rest : list string) :
  Object_keys o = k :: rest -> exists v, get o k = Some v.
Proof.
  destruct o as [|[k' v] o]; simpl; intros H; [discriminate|].
  injection H as -> _. exists v. rewrite String.eqb_refl. reflexivity.
Qed.

Lemma columnNames_first (schema : Schema) (firstTable : string) (rest : list string) :
  tableNames schema = firstTable :: rest ->
  exists t, get (default [] (tables schema)) firstTable = Some t /\
            columnNames schema firstTable = Return (Object_keys (default [] (columns t))).
Proof.
  intros H. destruct (get_head _ _ _ H) as [t Ht].
  exists t. split; [exact Ht|]. unfold columnNames. rewrite Ht. reflexivity.
Qed.

Lemma generateFallbackSQL_empty (query : string) (schema : Schema) :
  tableNames schema = [] -> generateFallbackSQL query schema = Throw (Error NO_TABLES).
Proof. intros H. unfold generateFallbackSQL. rewrite H. reflexivity. Qed.

(** With at least one table the fallback always returns a text. *)
Lemma generateFallbackSQL_returns (query : string) (schema : Schema)
    (firstTable : string) (rest : list string) :
  tableNames schema = firstTable :: rest ->
  exists sql, generateFallbackSQL query schema = Return sql.
Proof.
  intros H. destruct (columnNames_first _ _ _ H) as (t & _ & Hc).
  unfold generateFallbackSQL. rewrite H, Hc.
  repeat match goal with
         | |- context [if ?b then _ else _] => destruct b
         end; eauto.
Qed.



(** The fallback reads no more of its arguments than the lower-cased
    question, the table names and the columns of the first table. *)
Lemma generateFallbackSQL_ext (query1 query2 : string) (schema1 schema2 : Schema) :
  toLowerCase query1 = toLowerCase query2 ->
  tableNames schema1 = tableNames schema2 ->
  (forall firstTable, head (tableNames schema1) = Some firstTable ->
     columnNames schema1 firstTable = columnNames schema2 firstTable) ->
  generateFallbackSQL query1 schema1 = generateFallbackSQL query2 schema2.
Proof.
  intros Hq Ht Hc. unfold generateFallbackSQL. rewrite <- Hq, <- Ht.
  destruct (tableNames schema1) as [|firstTable rest]; [reflexivity|].
  rewrite (Hc firstTable eq_refl). reflexivity.
Qed.

(** The translator's own fallback has no rule for salaries: on the
    session schema such a question gets the default query. *)
Example generateFallbackSQL_salary :
  generateFallbackSQL "average salary by department" Routes.sessionSchema
  = Return "SELECT id, name, department, salary, hire_date FROM employees LIMIT 10;".
Proof. reflexivity. Qed.

(** What both tiers of the translator do hold to. *)

Lemma generateFallbackSQL_starts_with_SELECT (query : string) (schema : Schema) (sql : string) :
  generateFallbackSQL query schema = Return sql -> startsWith sql "SELECT " = true.
Proof.
  unfold generateFallbackSQL. destruct (tableNames schema) as [|firstTable rest]; [discriminate|].
  repeat match goal with
         | |- context [if ?b then _ else _] => destruct b
         end;
    try (intros H; injection H as <-; reflexivity).
  destruct (columnNames schema firstTable); [|discriminate].
  intros H; injection H as <-. unfold startsWith, join. cbn.
  destruct (String.concat _ _ +:+ _); reflexivity.
Qed.

(** A reply is never handed to the fallback once it has arrived: whatever
    the clean-up leaves is returned. *)
Lemma generateSQLFromQuery_reply (text : option string) (query : string)
    (schema : Schema) (sector : string) :
  generateSQLFromQuery (Response text) query schema sector
  = Return (cleanResponse (default "" text)).
Proof. reflexivity. Qed.

(** C1, on the code: a reply of the primary tier that holds no SELECT at
    all is returned as it came, here a DELETE statement, and so is a reply
    whose SELECT comes after prose containing the letter s; the fallback is
    not consulted. *)
Theorem generateSQLFromQuery_returns_unchecked_reply :
  generateSQLFromQuery (Response (Some "DELETE FROM loans;"))
    "remove every loan" Routes.sessionSchema "bank" = Return "DELETE FROM loans;" /\
  startsWith "DELETE FROM loans;" "SELECT" = false /\
  generateSQLFromQuery (Response (Some "Here is the query: SELECT * FROM loans;"))
    "show loans" Routes.sessionSchema "bank" = Return "Here is the query: SELECT * FROM loans;" /\
  generateFallbackSQL "remove every loan" Routes.sessionSchema
    = Return "SELECT id, name, department, salary, hire_date FROM employees LIMIT 10;".
Proof. repeat split; vm_compute; reflexivity. Qed.

(** *** The suggester *)

Lemma Array_filter_kept (l kept : list JSON) :
  Array_filter isComplete l = Return kept ->
  forall v, In v kept <-> In v l /\ complete v.
Proof.
  unfold complete. revert kept; induction l as [|x l IH]; simpl; intros kept H.
  - injection H as <-. simpl. tauto.
  - destruct (isComplete x) as [keep|] eqn:Ex; [|discriminate].
    destruct (Array_filter isComplete l) as [r|]; [|discriminate].
    injection H as <-. intros v. specialize (IH r eq_refl v).
    destruct keep; simpl; rewrite IH; split.
    + intros [<-|[H1 H2]]; auto.
    + intros [[<-|H1] H2]; auto.
    + intros [H1 H2]; auto.
    + intros [[<-|H1] H2]; [congruence|auto].
Qed.

Lemma Array_filter_null (l : list JSON) :
  In JNull l <-> exists e, Array_filter isComplete l = Throw e.
Proof.
  induction l as [|x l IH]; simpl.
  - split; [contradiction|]. intros [e H]; discriminate H.
  - split.
    + intros [->|H]; [eexists; reflexivity|].
      apply IH in H as [e He]. rewrite He.
      destruct (isComplete x); eexists; reflexivity.
    + intros [e H]. destruct x; try (left; reflexivity); right; apply IH;
        simpl in H;
        (destruct (Array_filter isComplete l) as [r|e']; [discriminate H|eexists; reflexivity]).
Qed.

Lemma fixedSuggestions_cases (sector : string) :
  fixedSuggestions sector = bank \/
  fixedSuggestions sector = finance \/
  fixedSuggestions sector = ithr.
Proof.
  unfold fixedSuggestions, fallbackSuggestions, get.
  repeat match goal with
         | |- context [if ?b then _ else _] => destruct b
         end; auto.
Qed.

Lemma fixedSuggestions_three (sector : string) :
  length (fixedSuggestions sector) = 3 /\
  List.NoDup (map id (fixedSuggestions sector)) /\
  Forall complete (map toObject (fixedSuggestions sector)).
Proof.
  destruct (fixedSuggestions_cases sector) as [-> | [-> | ->]];
    (split; [reflexivity|]; split;
     [repeat constructor; simpl; intuition discriminate
     |repeat constructor]).
Qed.

(** The fallback lookup gives the sector's fixed list, unless the sector is
    no entry of the table and names a member the table inherits. *)
Lemma getFallbackSuggestions_eq (polluted : bool) (sector : string) :
  getFallbackSuggestions polluted sector =
  match get fallbackSuggestions sector, inherited polluted sector with
  | None, Some i => Member i
  | _, _ => Suggestions (map toObject (fixedSuggestions sector))
  end.
Proof.
  unfold getFallbackSuggestions, fixedSuggestions.
  destruct (get fallbackSuggestions sector); [reflexivity|].
  destruct (inherited polluted sector); reflexivity.
Qed.

Lemma getFallbackSuggestions_list (polluted : bool) (sector : string) (r : list JSON) :
  getFallbackSuggestions polluted sector = Suggestions r ->
  r = map toObject (fixedSuggestions sector).
Proof.
  rewrite getFallbackSuggestions_eq.
  destruct (get fallbackSuggestions sector); [congruence|].
  destruct (inherited polluted sector); [discriminate|congruence].
Qed.

Lemma generateKPISuggestions_fallsBack (JSON_parse : string -> option JSON)
    (polluted : bool) (ai : Generated) (schema : Schema) (sector : string) :
  fallsBack JSON_parse ai ->
  generateKPISuggestions JSON_parse polluted ai schema sector
  = getFallbackSuggestions polluted sector.
Proof.
  unfold generateKPISuggestions.
  intros [-> | [-> | [-> | (rawJson & -> & H)]]]; try reflexivity.
  destruct (String.eqb rawJson ""); [reflexivity|].
  destruct H as [-> | [(v & -> & Hv) | (l & -> & Hl)]]; [reflexivity| |].
  - destruct v; try reflexivity. exfalso. exact (Hv _ eq_refl).
  - apply Array_filter_null in Hl as [e ->]. reflexivity.
Qed.

(** C7, as the code has it: a list that comes back holds at most eight
    suggestions, each with its five fields present; what the primary tier
    sent is filtered for completeness first and cut to eight afterwards;
    every other reply of the primary tier (none, no text, text that is not a
    JSON array, an array holding null) makes way for the fixed list of the
    sector, or of finance for a sector the table does not list: three
    suggestions with distinct ids. The last part is for sectors that name no
    member inherited from [Object.prototype]. *)
Theorem generateKPISuggestions_at_most_eight (JSON_parse : string -> option JSON)
    (polluted : bool) (ai : Generated) (schema : Schema) (sector : string) :
  let result := generateKPISuggestions JSON_parse polluted ai schema sector in
  (forall r, result = Suggestions r -> length r <= 8 /\ Forall complete r) /\
  (forall rawJson suggestions kept,
     ai = Response (Some rawJson) -> rawJson <> "" ->
     JSON_parse rawJson = Some (JArray suggestions) ->
     Array_filter isComplete suggestions = Return kept ->
     result = Suggestions (firstn 8 kept) /\
     forall v, In v kept <-> In v suggestions /\ complete v) /\
  (fallsBack JSON_parse ai -> inherited polluted sector = None ->
     result = Suggestions (map toObject (fixedSuggestions sector)) /\
     length (fixedSuggestions sector) = 3 /\
     List.NoDup (map id (fixedSuggestions sector))) /\
  (fallsBack JSON_parse ai \/
   exists rawJson suggestions kept,
     ai = Response (Some rawJson) /\ rawJson <> "" /\
     JSON_parse rawJson = Some (JArray suggestions) /\
     Array_filter isComplete suggestions = Return kept).
Proof.
  destruct (fixedSuggestions_three sector) as (H3 & Hnd & Hc).
  assert (Hfb : forall r, getFallbackSuggestions polluted sector = Suggestions r ->
                  length r <= 8 /\ Forall complete r).
  { intros r Hr. apply getFallbackSuggestions_list in Hr as ->.
    rewrite length_map, H3. split; [lia|exact Hc]. }
  cbv zeta. split; [|split; [|split]].
  - unfold generateKPISuggestions.
    destruct ai as [|[rawJson|]]; try exact Hfb.
    destruct (String.eqb rawJson ""); [exact Hfb|].
    destruct (JSON_parse rawJson) as [[| | | |l|]|]; try exact Hfb.
    destruct (Array_filter isComplete l) as [kept|] eqn:E; [|exact Hfb].
    intros r Hr. replace r with (slice0 8 kept) by congruence.
    split; [apply firstn_le_length|].
    apply List.Forall_forall. intros v Hv. apply (Array_filter_kept l kept E).
    revert Hv. apply JSFacts.In_slice0.
  - intros rawJson suggestions kept -> Hne Hp Hf.
    unfold generateKPISuggestions.
    destruct (String.eqb_spec rawJson ""); [contradiction|].
    rewrite Hp, Hf. split; [reflexivity|]. apply Array_filter_kept, Hf.
  - intros Hf Hi. rewrite (generateKPISuggestions_fallsBack _ _ _ _ _ Hf).
    rewrite getFallbackSuggestions_eq, Hi.
    split; [destruct (get fallbackSuggestions sector); reflexivity|]. auto.
  - destruct ai as [|[rawJson|]];
      [left; left; reflexivity| |left; right; left; reflexivity].
    destruct (String.eqb_spec rawJson "") as [->|Hne];
      [left; right; right; left; reflexivity|].
    assert (Hraw : forall P : Prop,
              (JSON_parse rawJson = None \/
               (exists v, JSON_parse rawJson = Some v /\ forall l, v <> JArray l) \/
               (exists l, JSON_parse rawJson = Some (JArray l) /\ In JNull l)) ->
              fallsBack JSON_parse (Response (Some rawJson)) \/ P).
    { intros P H. left; right; right; right. exists rawJson. split; [reflexivity|exact H]. }
    destruct (JSON_parse rawJson) as [v|] eqn:Hp; [|apply Hraw; left; reflexivity].
    destruct v as [| | | |l|];
      try (apply Hraw; right; left; eexists; split; [reflexivity|intros l; discriminate]).
    destruct (Array_filter isComplete l) as [kept|e] eqn:Hf.
    + right. exists rawJson, l, kept. auto.
    + apply Hraw. right; right. exists l. split; [reflexivity|].
      apply Array_filter_null. exists e. exact Hf.
Qed.

Lemma generateKPISuggestions_at_most_eight_witness :
  fallsBack (fun _ => None) (Response (Some "not json")) /\
  inherited false "retail" = None /\
  generateKPISuggestions (fun _ => None) false (Response (Some "not json"))
    Routes.sessionSchema "retail" = Suggestions (map toObject finance).
Proof.
  assert (Hf : fallsBack (fun _ => None) (Response (Some "not json"))).
  { right; right; right. exists "not json". split; [reflexivity|]. left; reflexivity. }
  assert (Hi : inherited false "retail" = None) by reflexivity.
  split; [exact Hf|]. split; [exact Hi|].
  pose proof (generateKPISuggestions_at_most_eight
                (fun _ => None) false (Response (Some "not json"))
                Routes.sessionSchema "retail") as (_ & _ & Hfb & _).
  destruct (Hfb Hf Hi) as (Hr & _). exact Hr.
Defined.

(** C7 as stated fails: when the primary tier is down, three suggestions
    come back, not six to eight. *)
Lemma generateKPISuggestions_fallback_too_short :
  exists r, generateKPISuggestions (fun _ => None) false Rejected
              Routes.sessionSchema "bank" = Suggestions r /\
            ~ (6 <= length r <= 8).
Proof. exists (map toObject bank). split; [reflexivity|]. simpl. lia. Qed.

(** Nor are the primary tier's suggestions deduplicated by id. *)
Example generateKPISuggestions_keeps_duplicates :
  let s := toObject {| id := "a"; name := "A"; description := "d";
                       query_template := "q"; category := "c" |} in
  generateKPISuggestions (fun _ => Some (JArray [s; s])) false (Response (Some "[...]"))
    Routes.sessionSchema "bank" = Suggestions [s; s].
Proof. reflexivity. Qed.

(** For a sector that is no entry of the table and names an inherited
    member, the fallback lookup gives that member. *)
Example getFallbackSuggestions_inherited :
  getFallbackSuggestions false "toString" = Member (Builtin "toString") /\
  getFallbackSuggestions false "__proto__" = Member ObjectPrototype /\
  getFallbackSuggestions true "isActive" = Member IsActiveTrue /\
  getFallbackSuggestions false "isActive" = Suggestions (map toObject finance).
Proof. repeat split. Qed.

End GeminiFacts.

(** ** The connection registry *)
Module RegistryFacts.
Import JS DatabaseConfigService.

Lemma lookup_deactivateAll_None (m : gmap string DatabaseConnection) (id : string) :
  deactivateAll m !! id = None <-> m !! id = None.
Proof. unfold deactivateAll. rewrite lookup_fmap. apply fmap_None. Qed.

Lemma decide_deactivateAll_None (m : gmap string DatabaseConnection) (id : string) :
  bool_decide (deactivateAll m !! id = None) = bool_decide (m !! id = None).
Proof. apply bool_decide_ext, lookup_deactivateAll_None. Qed.

Lemma read_own (s : Service) (id : string) (r : DatabaseConnection) :
  connections (config s) !! id = Some r -> read s id = Record r.
Proof. unfold read. intros ->. reflexivity. Qed.

Lemma read_inherited (s : Service) (id : string) :
  connections (config s) !! id = None -> read s id = readInherited (heap s) id.
Proof. unfold read. intros ->. reflexivity. Qed.

Lemma readInherited_default (h : Heap) : readInherited h "default" = Undefined.
Proof. unfold readInherited. destruct (prototype h); reflexivity. Qed.

Lemma addConnection_eq (w : World) (id : string) (p : ConnectionParams) (s : Service) :
  addConnection w id p s =
  if connects w then
    match catalog w with
    | Some snapshot =>
        let own := deactivateAll (connections (config s)) in
        let asPrototype :=
          String.eqb id "__proto__" && bool_decide (connections (config s) !! id = None) in
        let c' :=
          {| currentConnection := Some id;
             connections := if asPrototype then own
                            else <[id := connected w p snapshot]> own |} in
        let h' :=
          if asPrototype
          then {| prototype := Some (connected w p snapshot); polluted := polluted (heap s) |}
          else heap s in
        if writable w
        then (Return {| success := true; resultSchema := Some snapshot; error := None |},
              {| config := c'; file := Some c'; heap := h' |})
        else (Return {| success := false; resultSchema := None; error := Some SAVE_FAILED |},
              {| config := c'; file := file s; heap := h' |})
    | None =>
        (Return {| success := false; resultSchema := None; error := Some EXTRACT_FAILED |}, s)
    end
  else (Return {| success := false; resultSchema := None; error := Some CONNECT_FAILED |}, s).
Proof.
  unfold addConnection, catch, testConnection, extractSchema, deactivateConnections,
    writeConnection, setCurrentConnection, saveConfig, getConfig, setConfig, getHeap,
    setHeap, throw, mbind, M_bind, mret, M_ret.
  destruct (connects w); simpl; [|reflexivity].
  destruct (catalog w); simpl; [|reflexivity].
  rewrite decide_deactivateAll_None.
  destruct (String.eqb id "__proto__" && bool_decide (connections (config s) !! id = None));
    simpl; destruct (writable w); reflexivity.
Qed.
Lemma setActiveConnection_eq (w : World) (id : string) (s : Service) :
  setActiveConnection w id s =
  if negb (truthy (read s id)) then (Return false, s)
  else
    let own := deactivateAll (connections (config s)) in
    let saved (c' : DatabaseConfig) (h' : Heap) :=
      if writable w
      then (Return true, {| config := c'; file := Some c'; heap := h' |})
      else (Throw (Error SAVE_FAILED), {| config := c'; file := file s; heap := h' |}) in
    match connections (config s) !! id with
    | Some _ =>
        saved {| currentConnection := Some id;
                 connections := alter (setIsActive true) id own |} (heap s)
    | None =>
        match touch (heap s) (readInherited (heap s) id) with
        | Return h' => saved {| currentConnection := Some id; connections := own |} h'
        | Throw e =>
            (Throw e,
             {| config := {| currentConnection := currentConnection (config s);
                             connections := own |};
                file := file s; heap := heap s |})
        end
    end.
Proof.
  unfold setActiveConnection, readConnection, deactivateConnections, activate,
    setCurrentConnection, saveConfig, getConfig, setConfig, getHeap, setHeap, throw,
    mbind, M_bind, mret, M_ret.
  destruct (truthy (read s id)); simpl; [|reflexivity].
  destruct (connections (config s) !! id) as [r|] eqn:E.
  - assert (E1 : deactivateAll (connections (config s)) !! id = Some (setIsActive false r))
      by (unfold deactivateAll; rewrite lookup_fmap, E; reflexivity).
    rewrite E1. simpl. destruct (writable w); reflexivity.
  - apply lookup_deactivateAll_None in E. rewrite E. simpl.
    destruct (touch (heap s) (readInherited (heap s) id)); simpl; [|reflexivity].
    destruct (writable w); reflexivity.
Qed.

Lemma removeConnection_eq (w : World) (id : string) (s : Service) :
  removeConnection w id s =
  if negb (truthy (read s id)) || String.eqb id "default" then (Return false, s)
  else
    let remaining := delete id (connections (config s)) in
    let saved (c' : DatabaseConfig) :=
      if writable w
      then (Return true, {| config := c'; file := Some c'; heap := heap s |})
      else (Throw (Error SAVE_FAILED), {| config := c'; file := file s; heap := heap s |}) in
    if bool_decide (currentConnection (config s) = Some id)
    then
      match remaining !! "default" with
      | Some _ =>
          saved {| currentConnection := Some "default";
                   connections := alter (setIsActive true) "default" remaining |}
      | None =>
          (Throw (TypeError CANNOT_SET),
           {| config := {| currentConnection := Some "default"; connections := remaining |};
              file := file s; heap := heap s |})
      end
    else saved {| currentConnection := currentConnection (config s);
                  connections := remaining |}.
Proof.
  unfold removeConnection, readConnection, deleteConnection, activate,
    setCurrentConnection, saveConfig, getConfig, setConfig, getHeap, setHeap, throw,
    mbind, M_bind, mret, M_ret.
  destruct (negb (truthy (read s id)) || String.eqb id "default"); simpl; [reflexivity|].
  destruct (bool_decide (currentConnection (config s) = Some id)); simpl.
  - destruct (delete id (connections (config s)) !! "default"); simpl.
    + destruct (writable w); reflexivity.
    + rewrite readInherited_default. reflexivity.
  - destruct (writable w); reflexivity.
Qed.

Lemma removeConnection_refused (w : World) (id : string) (s : Service) :
  truthy (read s id) = false \/ id = "default" ->
  removeConnection w id s = (Return false, s).
Proof.
  intros H. rewrite removeConnection_eq.
  destruct H as [-> | ->]; [reflexivity|]. rewrite orb_true_r. reflexivity.
Qed.

(** C4: when the liveness probe fails, [addConnection] reports the
    connection error and hands back the service as it was: same registry in
    memory, same file. *)
Theorem addConnection_connect_failure (w : World) (id : string)
    (p : ConnectionParams) (s : Service) :
  connects w = false ->
  addConnection w id p s =
    (Return {| success := false; resultSchema := None; error := Some CONNECT_FAILED |}, s).
Proof. intros H. rewrite addConnection_eq, H. reflexivity. Qed.

Lemma addConnection_connect_failure_witness :
  let p := {| host := "db.invalid"; port := 5432; database := "x";
              username := "u"; password := "wrong" |} in
  connects offline = false /\
  snd (addConnection offline "x" p fresh) = fresh /\
  connections (config (snd (addConnection offline "x" p fresh))) !! "x" = None.
Proof.
  intros p. split; [reflexivity|].
  rewrite (addConnection_connect_failure offline "x" p fresh eq_refl).
  split; reflexivity.
Defined.

(** C10, on the code: the guard of [removeConnection] reads
    [connections[id]], and for an id that is no entry of the registry the
    read goes on to the prototype chain. When it finds nothing truthy there,
    the call answers [false] and changes nothing, as it does for "default".
    When the id names a member the object inherits, such as "toString", the
    call goes through: it answers [true] and writes the file, or throws the
    save error. *)
Theorem removeConnection_absent (w : World) (id : string) (s : Service) :
  connections (config s) !! id = None ->
  removeConnection w "default" s = (Return false, s) /\
  (truthy (readInherited (heap s) id) = false ->
     removeConnection w id s = (Return false, s)) /\
  (truthy (readInherited (heap s) id) = true ->
   currentConnection (config s) <> Some id ->
     removeConnection w id s =
       if writable w
       then (Return true, {| config := config s; file := Some (config s); heap := heap s |})
       else (Throw (Error SAVE_FAILED), s)).
Proof.
  intros H. split; [|split].
  - apply removeConnection_refused. right; reflexivity.
  - intros Hf. apply removeConnection_refused. left.
    rewrite (read_inherited s id H). exact Hf.
  - intros Ht Hcur. rewrite removeConnection_eq, (read_inherited s id H), Ht.
    destruct (String.eqb_spec id "default") as [->|Hne];
      [rewrite readInherited_default in Ht; discriminate Ht|].
    cbv zeta. rewrite bool_decide_eq_false_2 by exact Hcur.
    rewrite (delete_id _ _ H). destruct s as [[cur m] f h]. reflexivity.
Qed.

Lemma removeConnection_absent_witness :
  connections (config unsaved) !! "toString" = None /\
  removeConnection online "toString" unsaved
    = (Return true,
       {| config := config unsaved; file := Some (config unsaved); heap := pristine |}) /\
  file unsaved = Some defaultConfig.
Proof.
  assert (H : connections (config unsaved) !! "toString" = None) by reflexivity.
  split; [exact H|]. split; [|reflexivity].
  destruct (removeConnection_absent online "toString" unsaved H) as (_ & _ & Hr).
  apply Hr; [reflexivity|discriminate].
Defined.

(** C3 as stated fails: activating "default" while the file cannot be
    written throws, and the registry in memory keeps the activation. *)
Lemma setActiveConnection_not_rolled_back :
  let w := withWritable false offline in
  fst (setActiveConnection w "default" fresh) = Throw (Error SAVE_FAILED) /\
  config (snd (setActiveConnection w "default" fresh)) <> config fresh /\
  currentConnection (config (snd (setActiveConnection w "default" fresh))) = Some "default".
Proof.
  intros w. rewrite setActiveConnection_eq.
  change (connections (config fresh) !! "default") with (Some defaultConnection).
  simpl. split; [reflexivity|]. split; [|reflexivity].
  intros H. apply (f_equal currentConnection) in H. discriminate H.
Qed.

(** C3, as the code has it: a request that goes through when the file can
    be written reports the save error when it cannot, leaves the file as it
    was, and leaves in memory the registry the successful run produces. *)
Theorem save_failure_keeps_mutation (w : World) (r : Request) (s : Service) :
  succeeded (fst (handle (withWritable true w) r s)) = true ->
  reportsError SAVE_FAILED (fst (handle (withWritable false w) r s)) /\
  file (snd (handle (withWritable false w) r s)) = file s /\
  config (snd (handle (withWritable false w) r s))
    = config (snd (handle (withWritable true w) r s)).
Proof.
  unfold reportsError.
  destruct r as [id p | id | id]; unfold handle, fmap, M_fmap.
  - rewrite !addConnection_eq. simpl.
    destruct (connects w); [|discriminate].
    destruct (catalog w); [|discriminate]. simpl. auto.
  - rewrite !setActiveConnection_eq. simpl.
    destruct (truthy (read s id)); [|discriminate]. simpl.
    destruct (connections (config s) !! id); [simpl; auto|].
    destruct (touch (heap s) (readInherited (heap s) id)); [simpl; auto|discriminate].
  - rewrite !removeConnection_eq. simpl.
    destruct (negb (truthy (read s id)) || String.eqb id "default"); [discriminate|].
    destruct (bool_decide (currentConnection (config s) = Some id)); [|simpl; auto].
    destruct (delete id (connections (config s)) !! "default"); [simpl; auto|discriminate].
Qed.

Lemma save_failure_keeps_mutation_witness :
  reportsError SAVE_FAILED (fst (handle (withWritable false offline)
                                   (SetActiveConnection "default") fresh)) /\
  file (snd (handle (withWritable false offline) (SetActiveConnection "default") fresh))
    = Some defaultConfig.
Proof.
  assert (H : succeeded (fst (handle (withWritable true offline)
                                (SetActiveConnection "default") fresh)) = true)
    by reflexivity.
  destruct (save_failure_keeps_mutation offline (SetActiveConnection "default") fresh H)
    as (H1 & H2 & _).
  split; [exact H1|exact H2].
Defined.

(** *** The invariant *)

Lemma consistent_invariant (c : DatabaseConfig) : consistent c -> registryInvariant c.
Proof.
  intros [Ha Hd]. split; [|exact Hd].
  intros id1 id2 r1 r2 H1 H2 A1 A2.
  pose proof (Ha id1 r1 H1 A1) as E1. pose proof (Ha id2 r2 H2 A2) as E2.
  congruence.
Qed.

Lemma lookup_deactivateAll (m : gmap string DatabaseConnection) (id : string)
    (r : DatabaseConnection) :
  deactivateAll m !! id = Some r -> isActive r = false.
Proof.
  unfold deactivateAll. rewrite lookup_fmap.
  destruct (m !! id); simpl; [|discriminate]. intros H; injection H as <-. reflexivity.
Qed.

Lemma consistent_default : consistent defaultConfig.
Proof.
  split.
  - intros id r H A. simpl in H.
    apply lookup_singleton_Some in H as [_ <-]. discriminate A.
  - unfold hasDefault. simpl. rewrite lookup_singleton_eq. eauto.
Qed.

Lemma hasDefault_deactivateAll (c : DatabaseConfig) :
  hasDefault c -> is_Some (deactivateAll (connections c) !! "default").
Proof.
  intros [d Hd]. unfold deactivateAll. rewrite lookup_fmap, Hd. simpl. eauto.
Qed.

Lemma consistent_deactivated (c : DatabaseConfig) (current : option string) :
  hasDefault c ->
  consistent {| currentConnection := current;
                connections := deactivateAll (connections c) |}.
Proof.
  intros Hd. split.
  - intros k x H A. simpl in H. apply lookup_deactivateAll in H. congruence.
  - apply hasDefault_deactivateAll, Hd.
Qed.

Lemma consistent_add (c : DatabaseConfig) (id : string) (r : DatabaseConnection) :
  hasDefault c ->
  consistent {| currentConnection := Some id;
                connections := <[id := r]> (deactivateAll (connections c)) |}.
Proof.
  intros Hd. split.
  - intros k x H A. simpl in *.
    destruct (decide (id = k)) as [->|Hne]; [reflexivity|].
    rewrite lookup_insert_ne in H by exact Hne.
    apply lookup_deactivateAll in H. congruence.
  - unfold hasDefault. simpl.
    destruct (decide (id = "default")) as [->|Hne].
    + rewrite lookup_insert_eq. eauto.
    + rewrite lookup_insert_ne by exact Hne. apply hasDefault_deactivateAll, Hd.
Qed.

Lemma consistent_setActive (c : DatabaseConfig) (id : string) :
  hasDefault c ->
  consistent {| currentConnection := Some id;
                connections := alter (setIsActive true) id
                                 (deactivateAll (connections c)) |}.
Proof.
  intros Hd. apply hasDefault_deactivateAll in Hd as [d Hd]. split.
  - intros k x H A. simpl in *.
    destruct (decide (id = k)) as [->|Hne]; [reflexivity|].
    rewrite lookup_alter_ne in H by exact Hne.
    apply lookup_deactivateAll in H. congruence.
  - unfold hasDefault. simpl.
    destruct (decide (id = "default")) as [->|Hne].
    + rewrite lookup_alter_eq, Hd. simpl. eauto.
    + rewrite lookup_alter_ne by exact Hne. rewrite Hd. eauto.
Qed.

Lemma consistent_remove (c : DatabaseConfig) (id : string) :
  consistent c -> id <> "default" ->
  consistent
    (if bool_decide (currentConnection c = Some id)
     then {| currentConnection := Some "default";
             connections := alter (setIsActive true) "default" (delete id (connections c)) |}
     else {| currentConnection := currentConnection c;
             connections := delete id (connections c) |}).
Proof.
  intros [Ha [d Hd]] Hne. case_bool_decide as Hcur; split.
  - intros k x H A. simpl in *.
    destruct (decide ("default" = k)) as [<-|Hk]; [reflexivity|].
    rewrite lookup_alter_ne in H by exact Hk.
    apply lookup_delete_Some in H as [Hik H].
    pose proof (Ha k x H A). congruence.
  - unfold hasDefault. simpl.
    rewrite lookup_alter_eq, lookup_delete_ne, Hd by exact Hne. simpl. eauto.
  - intros k x H A. simpl in *.
    apply lookup_delete_Some in H as [Hik H]. exact (Ha k x H A).
  - unfold hasDefault. simpl. rewrite lookup_delete_ne by exact Hne. eauto.
Qed.

Lemma sound_handle (w : World) (r : Request) (s : Service) :
  sound s -> sound (snd (handle w r s)).
Proof.
  intros [Hc Hf]. pose proof (proj2 Hc) as Hd.
  destruct r as [id p | id | id]; unfold handle, fmap, M_fmap.
  - rewrite addConnection_eq.
    destruct (connects w); [|split; assumption].
    destruct (catalog w) as [snapshot|]; [|split; assumption].
    cbv zeta.
    assert (Hr : consistent
              {| currentConnection := Some id;
                 connections :=
                   if String.eqb id "__proto__"
                      && bool_decide (connections (config s) !! id = None)
                   then deactivateAll (connections (config s))
                   else <[id := connected w p snapshot]>
                          (deactivateAll (connections (config s))) |}).
    { destruct (String.eqb id "__proto__"
                && bool_decide (connections (config s) !! id = None));
        [apply consistent_deactivated|apply consistent_add]; exact Hd. }
    destruct (writable w); simpl; split; simpl; try exact Hr; try exact Hf.
    intros c E; injection E as <-. exact Hr.
  - rewrite setActiveConnection_eq.
    destruct (truthy (read s id)); [|split; assumption]. cbv zeta.
    destruct (connections (config s) !! id).
    + pose proof (consistent_setActive (config s) id Hd) as Hr.
      destruct (writable w); simpl; split; simpl; try exact Hr; try exact Hf.
      intros c E; injection E as <-. exact Hr.
    + destruct (touch (heap s) (readInherited (heap s) id)).
      * pose proof (consistent_deactivated (config s) (Some id) Hd) as Hr.
        destruct (writable w); simpl; split; simpl; try exact Hr; try exact Hf.
        intros c E; injection E as <-. exact Hr.
      * simpl. split; simpl; [apply consistent_deactivated; exact Hd|exact Hf].
  - rewrite removeConnection_eq.
    destruct (negb (truthy (read s id))); [split; assumption|].
    destruct (String.eqb_spec id "default") as [->|Hne]; [split; assumption|].
    pose proof (consistent_remove (config s) id Hc Hne) as Hr.
    cbv zeta. simpl orb. cbv iota.
    destruct Hd as [d Hd].
    rewrite (lookup_delete_ne (connections (config s)) id "default"), Hd by exact Hne.
    destruct (bool_decide (currentConnection (config s) = Some id));
      destruct (writable w); simpl; split; simpl; try exact Hr; try exact Hf;
      intros c E; injection E as <-; exact Hr.
Qed.

Lemma sound_loadConfig (w : World) (onDisk : option DatabaseConfig) (s : Service) :
  (forall c, onDisk = Some c -> consistent c) ->
  loadConfig w onDisk = Return s -> sound s.
Proof.
  intros Hd. unfold loadConfig, saveConfig. destruct onDisk as [c|].
  - intros E; injection E as <-. split; simpl; [apply Hd; reflexivity|exact Hd].
  - destruct (writable w); [|discriminate].
    intros E; injection E as <-. split; simpl; [apply consistent_default|].
    intros c E; injection E as <-. apply consistent_default.
Qed.

Lemma reachable_sound (s : Service) : reachable s -> sound s.
Proof.
  induction 1 as [w s E | w s s' _ IH E | w r s _ IH].
  - apply (sound_loadConfig w None s); [discriminate|exact E].
  - apply (sound_loadConfig w (file s) s'); [apply IH|exact E].
  - apply sound_handle, IH.
Qed.

(** C2 as stated fails: the two parts of the invariant are not preserved
    on their own. In a registry where "b" is the one active record while
    [currentConnection] names "a", removing "a" activates "default" next to
    "b". *)
Lemma removeConnection_needs_tracking :
  registryInvariant (config untracked) /\
  fst (removeConnection offline "a" untracked) = Return true /\
  ~ atMostOneActive (config (snd (removeConnection offline "a" untracked))).
Proof.
  split; [|split].
  - split; [|eexists; reflexivity].
    intros id1 id2 r1 r2 H1 H2 A1 A2. simpl in H1, H2.
    apply lookup_insert_Some in H1 as [[<- <-]|[N1 H1]];
      apply lookup_insert_Some in H2 as [[<- <-]|[N2 H2]]; try reflexivity;
      exfalso.
    + apply lookup_insert_Some in H2 as [[<- <-]|[_ H2]]; [discriminate A2|].
      apply lookup_singleton_Some in H2 as [_ <-]. discriminate A2.
    + apply lookup_insert_Some in H1 as [[<- <-]|[_ H1]]; [discriminate A1|].
      apply lookup_singleton_Some in H1 as [_ <-]. discriminate A1.
    + apply lookup_insert_Some in H1 as [[<- <-]|[_ H1]]; [discriminate A1|].
      apply lookup_singleton_Some in H1 as [_ <-]. discriminate A1.
  - reflexivity.
  - intros H.
    specialize (H "default" "b" (setIsActive true defaultConnection)
                  (setIsActive true defaultConnection)).
    discriminate H; reflexivity.
Qed.

(** C2, as the code has it: in every state the service can reach, at most
    one record of the registry is active and "default" is present, in memory
    and in the file, and this still holds after any of [addConnection],
    [setActiveConnection] and [removeConnection] issued in such a state,
    whatever the id and whatever the outside answers. *)
Theorem registry_invariant (s : Service) :
  reachable s ->
  registryInvariant (config s) /\
  (forall c, file s = Some c -> registryInvariant c) /\
  forall w r, registryInvariant (config (snd (handle w r s))).
Proof.
  intros H. apply reachable_sound in H. split; [|split].
  - apply consistent_invariant. exact (proj1 H).
  - intros c E. apply consistent_invariant. exact (proj2 H c E).
  - intros w r. apply consistent_invariant. exact (proj1 (sound_handle w r s H)).
Qed.

Lemma registry_invariant_witness :
  let s := snd (handle online (AddConnection "crm" someParams) fresh) in
  reachable s /\
  connections (config s) !! "crm" = Some (connected online someParams
      {| tables := []; extractedAt := "t0"; totalTables := 0 |}) /\
  connections (config s) !! "default" = Some defaultConnection /\
  registryInvariant (config s) /\
  registryInvariant (config (snd (handle online (SetActiveConnection "default") s))) /\
  registryInvariant (config (snd (handle online (RemoveConnection "toString") s))).
Proof.
  intros s.
  assert (H : reachable s).
  { apply reachable_handle. apply (reachable_start offline). reflexivity. }
  split; [exact H|]. split; [reflexivity|]. split; [reflexivity|].
  destruct (registry_invariant s H) as (H1 & _ & H2).
  split; [exact H1|]. split; apply H2.
Defined.

End RegistryFacts.

(** ** More on the connection registry *)
Module RegistryUse.
Import JS DatabaseConfigService RegistryFacts.

Lemma getCurrentConnection_eq (s : Service) :
  getCurrentConnection s =
  (Return match currentConnection (config s) with
          | None => None
          | Some id =>
              if String.eqb id "" then None
              else if truthy (read s id) then Some (read s id) else None
          end, s).
Proof.
  unfold getCurrentConnection, readConnection, getConfig, mbind, M_bind, mret, M_ret.
  destruct (currentConnection (config s)) as [id|]; [|reflexivity].
  destruct (String.eqb id ""); reflexivity.
Qed.

Lemma getConnectionSchema_eq (s : Service) :
  fst (getConnectionSchema s) =
  match fst (getCurrentConnection s) with
  | Return (Some (Record r)) => Return (schema r)
  | Return _ => Return None
  | Throw e => Throw e
  end.
Proof.
  unfold getConnectionSchema, mbind at 1, M_bind, mret, M_ret.
  destruct (getCurrentConnection s) as [[[[]|]|e] s']; reflexivity.
Qed.

(** Where a successful [addConnection] leaves the new record: in the
    registry, or in place of its prototype when the id is ["__proto__"]. *)
Lemma addConnection_state (w : World) (id : string) (p : ConnectionParams)
    (s : Service) (snapshot : SchemaSnapshot) :
  connects w = true -> catalog w = Some snapshot ->
  let asPrototype :=
    String.eqb id "__proto__" && bool_decide (connections (config s) !! id = None) in
  config (snd (addConnection w id p s)) =
    {| currentConnection := Some id;
       connections := if asPrototype then deactivateAll (connections (config s))
                      else <[id := connected w p snapshot]>
                             (deactivateAll (connections (config s))) |} /\
  heap (snd (addConnection w id p s)) =
    if asPrototype
    then {| prototype := Some (connected w p snapshot); polluted := polluted (heap s) |}
    else heap s.
Proof.
  intros Hc Hs. rewrite addConnection_eq, Hc, Hs. cbv zeta.
  destruct (writable w); split; reflexivity.
Qed.

Lemma addConnection_current (w : World) (id : string) (p : ConnectionParams)
    (s : Service) (snapshot : SchemaSnapshot) :
  connects w = true -> catalog w = Some snapshot ->
  currentConnection (config (snd (addConnection w id p s))) = Some id.
Proof.
  intros Hc Hs. rewrite (proj1 (addConnection_state w id p s snapshot Hc Hs)). reflexivity.
Qed.

Lemma addConnection_others (w : World) (id : string) (p : ConnectionParams)
    (s : Service) (snapshot : SchemaSnapshot) (k : string) :
  connects w = true -> catalog w = Some snapshot -> k <> id ->
  connections (config (snd (addConnection w id p s))) !! k
    = setIsActive false <$> connections (config s) !! k.
Proof.
  intros Hc Hs Hk. rewrite (proj1 (addConnection_state w id p s snapshot Hc Hs)).
  cbn [connections].
  destruct (String.eqb id "__proto__" && bool_decide (connections (config s) !! id = None)).
  - unfold deactivateAll. apply lookup_fmap.
  - rewrite lookup_insert_ne by congruence. unfold deactivateAll. apply lookup_fmap.
Qed.

Lemma addConnection_read (w : World) (id : string) (p : ConnectionParams)
    (s : Service) (snapshot : SchemaSnapshot) :
  connects w = true -> catalog w = Some snapshot ->
  read (snd (addConnection w id p s)) id = Record (connected w p snapshot).
Proof.
  intros Hc Hs. destruct (addConnection_state w id p s snapshot Hc Hs) as [Ec Eh].
  cbv zeta in Ec, Eh. unfold read. rewrite Ec, Eh. cbn [connections].
  destruct (String.eqb_spec id "__proto__") as [->|Hne]; cbn [andb].
  - case_bool_decide as Hown.
    + apply lookup_deactivateAll_None in Hown. rewrite Hown. reflexivity.
    + rewrite lookup_insert_eq. reflexivity.
  - rewrite lookup_insert_eq. reflexivity.
Qed.

(** X1: once the probe and the catalog queries have succeeded,
    [getCurrentConnection] answers the record just added, active and with
    the extracted schema, and [getConnectionSchema] answers that schema,
    whether or not the file could be written. *)
Theorem addConnection_then_current (w : World) (id : string) (p : ConnectionParams)
    (s : Service) (snapshot : SchemaSnapshot) :
  connects w = true -> catalog w = Some snapshot -> id <> "" ->
  fst (getCurrentConnection (snd (addConnection w id p s)))
    = Return (Some (Record (connected w p snapshot))) /\
  fst (getConnectionSchema (snd (addConnection w id p s))) = Return (Some snapshot).
Proof.
  intros Hc Hs Hid.
  assert (E : fst (getCurrentConnection (snd (addConnection w id p s)))
              = Return (Some (Record (connected w p snapshot)))).
  { rewrite getCurrentConnection_eq. cbn [fst].
    rewrite (addConnection_current w id p s snapshot Hc Hs).
    destruct (String.eqb_spec id ""); [contradiction|].
    rewrite (addConnection_read w id p s snapshot Hc Hs). reflexivity. }
  split; [exact E|]. rewrite getConnectionSchema_eq, E. reflexivity.
Qed.

Lemma addConnection_then_current_witness :
  fst (getConnectionSchema (snd (addConnection (withWritable false online) "crm"
                                   someParams fresh)))
    = Return (Some {| tables := []; extractedAt := "t0"; totalTables := 0 |}) /\
  fst (getCurrentConnection (snd (addConnection online "__proto__" someParams fresh)))
    = Return (Some (Record (connected online someParams
                      {| tables := []; extractedAt := "t0"; totalTables := 0 |}))).
Proof.
  split.
  - apply (addConnection_then_current (withWritable false online) "crm" someParams fresh);
      [reflexivity|reflexivity|discriminate].
  - apply (addConnection_then_current online "__proto__" someParams fresh);
      [reflexivity|reflexivity|discriminate].
Defined.

(** X2: a connection added under the empty id is stored and active,
    yet [getCurrentConnection] answers null for it. *)
Theorem addConnection_empty_id (w : World) (p : ConnectionParams)
    (s : Service) (snapshot : SchemaSnapshot) :
  connects w = true -> catalog w = Some snapshot ->
  connections (config (snd (addConnection w "" p s))) !! ""
    = Some (connected w p snapshot) /\
  currentConnection (config (snd (addConnection w "" p s))) = Some "" /\
  fst (getCurrentConnection (snd (addConnection w "" p s))) = Return None.
Proof.
  intros Hc Hs. rewrite getCurrentConnection_eq. cbn [fst].
  rewrite (proj1 (addConnection_state w "" p s snapshot Hc Hs)).
  cbn [currentConnection connections String.eqb andb].
  rewrite lookup_insert_eq. repeat split; reflexivity.
Qed.

Lemma addConnection_empty_id_witness :
  fst (getCurrentConnection (snd (addConnection online "" someParams fresh))) = Return None.
Proof.
  apply (addConnection_empty_id online someParams fresh
           {| tables := []; extractedAt := "t0"; totalTables := 0 |});
    reflexivity.
Defined.

(** X3: adding a connection drops no record: every other id keeps its
    record, deactivated and otherwise as it was. *)
Theorem addConnection_keeps_others (w : World) (id : string) (p : ConnectionParams)
    (s : Service) (snapshot : SchemaSnapshot) (k : string) :
  connects w = true -> catalog w = Some snapshot -> k <> id ->
  connections (config (snd (addConnection w id p s))) !! k
    = setIsActive false <$> connections (config s) !! k.
Proof. apply addConnection_others. Qed.

Lemma addConnection_keeps_others_witness :
  connections (config (snd (addConnection online "crm" someParams fresh))) !! "default"
    = Some defaultConnection.
Proof.
  rewrite (addConnection_keeps_others online "crm" someParams fresh
             {| tables := []; extractedAt := "t0"; totalTables := 0 |} "default");
    [reflexivity|reflexivity|reflexivity|discriminate].
Defined.

(** X4: when the catalog queries fail after a successful probe,
    [addConnection] reports the extraction error and the service is as it
    was, in memory and on file. *)
Theorem addConnection_extract_failure (w : World) (id : string)
    (p : ConnectionParams) (s : Service) :
  connects w = true -> catalog w = None ->
  addConnection w id p s =
    (Return {| success := false; resultSchema := None; error := Some EXTRACT_FAILED |}, s).
Proof. intros Hc Hs. rewrite addConnection_eq, Hc, Hs. reflexivity. Qed.

Lemma addConnection_extract_failure_witness :
  let w := {| connects := true; catalog := None; now := "t1"; writable := true |} in
  snd (addConnection w "crm" someParams fresh) = fresh.
Proof.
  intros w. rewrite (addConnection_extract_failure w "crm" someParams fresh); reflexivity.
Defined.

Lemma setActiveConnection_config (w : World) (id : string) (s : Service)
    (r : DatabaseConnection) :
  connections (config s) !! id = Some r ->
  config (snd (setActiveConnection w id s)) =
    {| currentConnection := Some id;
       connections := alter (setIsActive true) id (deactivateAll (connections (config s))) |}.
Proof.
  intros Hr. rewrite setActiveConnection_eq, (read_own s id r Hr), Hr. cbv zeta.
  destruct (writable w); reflexivity.
Qed.

(** X5: switching to a known connection touches the active flags only:
    the chosen record becomes active, every other record inactive, no record
    appears or disappears, and [currentConnection] names the chosen id. *)
Theorem setActiveConnection_flags_only (w : World) (id : string) (s : Service)
    (r : DatabaseConnection) :
  connections (config s) !! id = Some r ->
  currentConnection (config (snd (setActiveConnection w id s))) = Some id /\
  connections (config (snd (setActiveConnection w id s))) !! id = Some (setIsActive true r) /\
  forall k, k <> id ->
    connections (config (snd (setActiveConnection w id s))) !! k
      = setIsActive false <$> connections (config s) !! k.
Proof.
  intros Hr. rewrite (setActiveConnection_config w id s r Hr).
  cbn [currentConnection connections].
  split; [reflexivity|]. split.
  - rewrite lookup_alter_eq. unfold deactivateAll. rewrite lookup_fmap, Hr. reflexivity.
  - intros k Hk. rewrite lookup_alter_ne by congruence. apply lookup_fmap.
Qed.

Lemma setActiveConnection_flags_only_witness :
  connections (config (snd (setActiveConnection offline "default" fresh))) !! "default"
    = Some (setIsActive true defaultConnection).
Proof.
  apply (setActiveConnection_flags_only offline "default" fresh defaultConnection).
  reflexivity.
Defined.

Lemma removeConnection_config (w : World) (id : string) (s : Service)
    (d : DatabaseConnection) :
  truthy (read s id) = true -> id <> "default" ->
  connections (config s) !! "default" = Some d ->
  config (snd (removeConnection w id s)) =
    if bool_decide (currentConnection (config s) = Some id)
    then {| currentConnection := Some "default";
            connections := alter (setIsActive true) "default"
                             (delete id (connections (config s))) |}
    else {| currentConnection := currentConnection (config s);
            connections := delete id (connections (config s)) |}.
Proof.
  intros Ht Hne Hd. rewrite removeConnection_eq, Ht.
  destruct (String.eqb_spec id "default"); [contradiction|]. cbv zeta. cbn [negb orb].
  rewrite (lookup_delete_ne (connections (config s)) id "default"), Hd by exact Hne.
  destruct (bool_decide (currentConnection (config s) = Some id));
    destruct (writable w); reflexivity.
Qed.

(** X6: removing a known connection other than "default" deletes that
    record and leaves every other record as it was, except that "default" is
    activated and made current when the removed one was current. *)
Theorem removeConnection_effect (w : World) (id : string) (s : Service)
    (d : DatabaseConnection) :
  is_Some (connections (config s) !! id) -> id <> "default" ->
  connections (config s) !! "default" = Some d ->
  let c' := config (snd (removeConnection w id s)) in
  connections c' !! id = None /\
  (forall k, k <> id -> k <> "default" -> connections c' !! k = connections (config s) !! k) /\
  (currentConnection (config s) = Some id ->
     currentConnection c' = Some "default" /\
     connections c' !! "default" = Some (setIsActive true d)) /\
  (currentConnection (config s) <> Some id ->
     currentConnection c' = currentConnection (config s) /\
     connections c' !! "default" = Some d).
Proof.
  intros [r Hr] Hne Hd. cbv zeta.
  rewrite (removeConnection_config w id s d) by (rewrite ?(read_own s id r Hr); auto).
  case_bool_decide as Hcur; cbn [currentConnection connections].
  - split; [rewrite lookup_alter_ne by congruence; apply lookup_delete_eq|].
    split; [intros k Hk Hkd; rewrite lookup_alter_ne by congruence;
            apply lookup_delete_ne; congruence|].
    split; [intros _; split; [reflexivity|]|intros H; contradiction].
    rewrite lookup_alter_eq, lookup_delete_ne, Hd by congruence. reflexivity.
  - split; [apply lookup_delete_eq|].
    split; [intros k Hk Hkd; apply lookup_delete_ne; congruence|].
    split; [intros H; contradiction|].
    intros _. split; [reflexivity|]. rewrite lookup_delete_ne by congruence. exact Hd.
Qed.

Lemma removeConnection_effect_witness :
  let s := snd (addConnection online "crm" someParams fresh) in
  connections (config (snd (removeConnection online "crm" s))) !! "crm" = None /\
  connections (config (snd (removeConnection online "crm" s))) !! "default"
    = Some (setIsActive true defaultConnection).
Proof.
  intros s.
  assert (Hid : is_Some (connections (config s) !! "crm")) by (eexists; reflexivity).
  assert (Hne : "crm" <> "default") by discriminate.
  assert (Hd : connections (config s) !! "default" = Some defaultConnection) by reflexivity.
  destruct (removeConnection_effect online "crm" s defaultConnection Hid Hne Hd)
    as (H1 & _ & H2 & _).
  split; [exact H1|]. apply H2. reflexivity.
Defined.

(** *** Outcomes *)

Lemma touch_primitive (h : Heap) (v : Value) :
  truthy v = true -> isObject v = false -> touch h v = Throw (TypeError CANNOT_CREATE).
Proof. destruct v as [| | | | | | |[]]; simpl; intros; congruence. Qed.

Lemma touch_throws (h : Heap) (v : Value) (e : Thrown) :
  truthy v = true -> touch h v = Throw e ->
  isObject v = false /\ e = TypeError CANNOT_CREATE.
Proof.
  destruct v as [| | | | | | |[]]; simpl; intros Ht H; try discriminate;
    injection H as <-; auto.
Qed.

Lemma setActiveConnection_primitive (w : World) (id : string) (s : Service) :
  namesPrimitive s id ->
  fst (setActiveConnection w id s) = Throw (TypeError CANNOT_CREATE).
Proof.
  intros (Hown & Ht & Ho). rewrite setActiveConnection_eq, Ht, Hown. cbv zeta. cbn [negb].
  rewrite (read_inherited s id Hown) in Ht, Ho.
  rewrite (touch_primitive _ _ Ht Ho). reflexivity.
Qed.

(** X7: in a state the service can reach, a request returns, or throws
    the save error, or is a [setActiveConnection] under an id that names an
    inherited primitive, which throws a [TypeError] (and always does); no
    request fails on a missing "default". *)
Theorem handle_outcomes (w : World) (r : Request) (s : Service) :
  reachable s ->
  ((exists reply, fst (handle w r s) = Return reply) \/
   fst (handle w r s) = Throw (Error SAVE_FAILED) \/
   exists id, r = SetActiveConnection id /\ namesPrimitive s id /\
              fst (handle w r s) = Throw (TypeError CANNOT_CREATE)) /\
  (forall id, namesPrimitive s id ->
     fst (handle w (SetActiveConnection id) s) = Throw (TypeError CANNOT_CREATE)).
Proof.
  intros H. apply reachable_sound in H. destruct H as [[_ [d Hd]] _]. split.
  - destruct r as [id p | id | id]; unfold handle, fmap, M_fmap.
    + rewrite addConnection_eq.
      destruct (connects w); [|left; eexists; reflexivity].
      destruct (catalog w); [|left; eexists; reflexivity].
      cbv zeta. destruct (writable w); left; eexists; reflexivity.
    + rewrite setActiveConnection_eq.
      destruct (truthy (read s id)) eqn:Ht; [|left; eexists; reflexivity].
      cbv zeta. cbn [negb].
      destruct (connections (config s) !! id) eqn:Hown.
      * destruct (writable w); [left; eexists; reflexivity|right; left; reflexivity].
      * rewrite (read_inherited s id Hown) in Ht.
        destruct (touch (heap s) (readInherited (heap s) id)) as [h'|e] eqn:Hh.
        -- destruct (writable w); [left; eexists; reflexivity|right; left; reflexivity].
        -- destruct (touch_throws _ _ _ Ht Hh) as [Ho ->].
           right; right. exists id. split; [reflexivity|]. split; [|reflexivity].
           unfold namesPrimitive. rewrite (read_inherited s id Hown). auto.
    + rewrite removeConnection_eq.
      destruct (negb (truthy (read s id))); [left; eexists; reflexivity|].
      destruct (String.eqb_spec id "default") as [->|Hne]; [left; eexists; reflexivity|].
      cbv zeta. cbn [orb].
      rewrite (lookup_delete_ne (connections (config s)) id "default"), Hd by exact Hne.
      destruct (bool_decide (currentConnection (config s) = Some id));
        (destruct (writable w); [left; eexists; reflexivity|right; left; reflexivity]).
  - intros id Hp. unfold handle, fmap, M_fmap.
    pose proof (setActiveConnection_primitive w id s Hp) as E.
    destruct (setActiveConnection w id s) as [[b|e] s']; cbn [fst] in *; congruence.
Qed.

Lemma handle_outcomes_witness :
  let s := snd (handle offline (SetActiveConnection "__proto__") fresh) in
  reachable s /\
  namesPrimitive s "isActive" /\
  fst (handle offline (SetActiveConnection "isActive") s) = Throw (TypeError CANNOT_CREATE).
Proof.
  intros s.
  assert (H : reachable s).
  { apply reachable_handle. apply (reachable_start offline). reflexivity. }
  assert (Hp : namesPrimitive s "isActive") by (repeat split).
  split; [exact H|]. split; [exact Hp|].
  apply (proj2 (handle_outcomes offline (SetActiveConnection "isActive") s H)). exact Hp.
Defined.

(** X8: the file is written exactly by the requests that succeed: after a
    success it holds the registry in memory, so that a restart loads that very
    registry; after anything else it is as before. *)
Theorem handle_file (w : World) (r : Request) (s : Service) :
  (succeeded (fst (handle w r s)) = true ->
     file (snd (handle w r s)) = Some (config (snd (handle w r s))) /\
     forall w', loadConfig w' (file (snd (handle w r s)))
                = Return {| config := config (snd (handle w r s));
                            file := file (snd (handle w r s));
                            heap := pristine |}) /\
  (succeeded (fst (handle w r s)) = false -> file (snd (handle w r s)) = file s).
Proof.
  assert (G : forall (o : Completion Reply) (s' : Service),
             (succeeded o = true -> file s' = Some (config s')) ->
             (succeeded o = false -> file s' = file s) ->
             (succeeded o = true ->
                file s' = Some (config s') /\
                forall w', loadConfig w' (file s')
                           = Return {| config := config s'; file := file s';
                                       heap := pristine |})
             /\ (succeeded o = false -> file s' = file s)).
  { intros o s' H1 H2. split; [|exact H2]. intros Ho. split; [exact (H1 Ho)|].
    intros w'. rewrite (H1 Ho). reflexivity. }
  destruct r as [id p | id | id]; unfold handle, fmap, M_fmap.
  - rewrite addConnection_eq.
    destruct (connects w); [|apply G; [discriminate|reflexivity]].
    destruct (catalog w); [|apply G; [discriminate|reflexivity]].
    cbv zeta. destruct (writable w); apply G; try reflexivity; discriminate.
  - rewrite setActiveConnection_eq.
    destruct (truthy (read s id)); [|apply G; [discriminate|reflexivity]].
    cbv zeta. cbn [negb].
    destruct (connections (config s) !! id).
    + destruct (writable w); apply G; try reflexivity; discriminate.
    + destruct (touch (heap s) (readInherited (heap s) id));
        [|apply G; [discriminate|reflexivity]].
      destruct (writable w); apply G; try reflexivity; discriminate.
  - rewrite removeConnection_eq.
    destruct (negb (truthy (read s id)) || String.eqb id "default");
      [apply G; [discriminate|reflexivity]|].
    cbv zeta.
    destruct (bool_decide (currentConnection (config s) = Some id)).
    + destruct (delete id (connections (config s)) !! "default");
        [|apply G; [discriminate|reflexivity]].
      destruct (writable w); apply G; try reflexivity; discriminate.
    + destruct (writable w); apply G; try reflexivity; discriminate.
Qed.

Lemma handle_file_witness :
  file (snd (handle offline (SetActiveConnection "default") fresh))
    = Some (config (snd (handle offline (SetActiveConnection "default") fresh))).
Proof.
  apply (handle_file offline (SetActiveConnection "default") fresh). reflexivity.
Defined.

(** *** The current connection *)

(** X9: in a state the service can reach, an active record stored under
    a non-empty id is what [getCurrentConnection] answers. *)
Theorem getCurrentConnection_active (s : Service) (id : string) (r : DatabaseConnection) :
  reachable s ->
  connections (config s) !! id = Some r -> isActive r = true -> id <> "" ->
  fst (getCurrentConnection s) = Return (Some (Record r)).
Proof.
  intros H Hr Hact Hid. pose proof (reachable_sound s H) as [[Ha _] _].
  rewrite getCurrentConnection_eq. cbn [fst]. rewrite (Ha id r Hr Hact).
  destruct (String.eqb_spec id ""); [contradiction|].
  rewrite (read_own s id r Hr). reflexivity.
Qed.

Lemma getCurrentConnection_active_witness :
  fst (getCurrentConnection (snd (handle offline (SetActiveConnection "default") fresh)))
    = Return (Some (Record (setIsActive true defaultConnection))).
Proof.
  assert (H : reachable (snd (handle offline (SetActiveConnection "default") fresh))).
  { apply reachable_handle. apply (reachable_start offline). reflexivity. }
  apply (getCurrentConnection_active _ "default" _ H);
    [reflexivity|reflexivity|discriminate].
Defined.

(** What [getCurrentConnection] answers need not be active, nor a record:
    a switch that throws on an inherited primitive has deactivated every
    record and left [currentConnection] as it was, and a switch to an
    inherited function makes that function current. *)
Example getCurrentConnection_inactive :
  let s1 := snd (handle offline (SetActiveConnection "__proto__") fresh) in
  let s2 := snd (handle offline (SetActiveConnection "default") s1) in
  let s3 := snd (handle offline (SetActiveConnection "isActive") s2) in
  fst (getCurrentConnection s3) = Return (Some (Record defaultConnection)) /\
  fst (getCurrentConnection (snd (handle offline (SetActiveConnection "toString") fresh)))
    = Return (Some (Member (Builtin "toString"))).
Proof. split; reflexivity. Qed.

Lemma deactivateAll_idempotent (m : gmap string DatabaseConnection) :
  deactivateAll (deactivateAll m) = deactivateAll m.
Proof.
  apply map_eq. intros k. unfold deactivateAll. rewrite !lookup_fmap.
  destruct (m !! k); reflexivity.
Qed.

Lemma inherited_object (b b' : bool) (id : string) (i : Inherited) :
  inherited b id = Some i -> i <> IsActiveTrue -> inherited b' id = Some i.
Proof.
  unfold inherited.
  destruct (Array_includes objectPrototypeFunctions id); [auto|].
  destruct (String.eqb id "__proto__"); [auto|].
  destruct (String.eqb id "isActive" && b); [congruence|discriminate].
Qed.

Lemma inherited_ObjectPrototype (b : bool) (id : string) :
  inherited b id = Some ObjectPrototype -> String.eqb id "__proto__" = true.
Proof.
  unfold inherited.
  destruct (Array_includes objectPrototypeFunctions id); [discriminate|].
  destruct (String.eqb id "__proto__"); [reflexivity|].
  destruct (String.eqb id "isActive" && b); discriminate.
Qed.

Lemma field_touch (h h' : Heap) (p : DatabaseConnection) (id : string) (v : Value) :
  field p id = Some v -> touch h v = Return h' -> h' = h.
Proof.
  unfold field.
  repeat match goal with
         | |- context [if ?b then _ else _] => destruct b
         end;
    try discriminate; intros H; injection H as <-;
    try discriminate;
    try (destruct (schema p)); try (destruct (lastConnected p));
    cbn [touch]; intros H; try discriminate H; injection H as <-; reflexivity.
Qed.

(** An object found on the prototype chain is found there again after
    [isActive] has been set on it. *)
Lemma touch_again (h h' : Heap) (id : string) :
  touch h (readInherited h id) = Return h' ->
  truthy (readInherited h' id) = true /\
  exists h'', touch h' (readInherited h' id) = Return h''.
Proof.
  unfold readInherited. destruct h as [[p|] b]; cbn [prototype polluted].
  - destruct (String.eqb id "__proto__") eqn:Eid.
    + intros H; injection H as <-. cbn [prototype polluted]. rewrite ?Eid.
      split; [reflexivity|eexists; reflexivity].
    + destruct (field p id) as [v|] eqn:Ef.
      * intros H. pose proof (field_touch _ _ _ _ _ Ef H) as ->.
        cbn [prototype polluted]. rewrite ?Eid, ?Ef.
        split; [|exists {| prototype := Some p; polluted := b |}; exact H].
        destruct v as [| | | | | | |[]]; try discriminate H; reflexivity.
      * destruct (inherited b id) as [[k| |]|] eqn:Ei; cbn [touch]; intros H;
          try discriminate H.
        -- injection H as <-. cbn [prototype polluted]. rewrite ?Eid, ?Ef, ?Ei.
           split; [reflexivity|eexists; reflexivity].
        -- apply inherited_ObjectPrototype in Ei. congruence.
  - destruct (inherited b id) as [[k| |]|] eqn:Ei; cbn [touch]; intros H;
      try discriminate H; injection H as <-; cbn [prototype polluted].
    + rewrite Ei. split; [reflexivity|eexists; reflexivity].
    + rewrite (inherited_object b true id ObjectPrototype Ei) by discriminate.
      split; [reflexivity|eexists; reflexivity].
Qed.

(** X10: switching twice to the same connection leaves the registry as
    switching once does. *)
Theorem setActiveConnection_idempotent (w1 w2 : World) (id : string) (s : Service) :
  config (snd (setActiveConnection w2 id (snd (setActiveConnection w1 id s))))
  = config (snd (setActiveConnection w1 id s)).
Proof.
  rewrite (setActiveConnection_eq w1).
  destruct (truthy (read s id)) eqn:Ht; cbn [negb];
    [|cbn [snd]; rewrite setActiveConnection_eq, Ht; reflexivity].
  cbv zeta. destruct (connections (config s) !! id) as [r|] eqn:Er.
  - assert (E : forall f, config (snd (setActiveConnection w2 id
                  {| config := {| currentConnection := Some id;
                                  connections := alter (setIsActive true) id
                                                   (deactivateAll (connections (config s))) |};
                     file := f; heap := heap s |})) =
                {| currentConnection := Some id;
                   connections := alter (setIsActive true) id
                     (deactivateAll (alter (setIsActive true) id
                        (deactivateAll (connections (config s))))) |}).
    { intros f.
      rewrite (setActiveConnection_config w2 id _ (setIsActive true (setIsActive false r)));
        [reflexivity|].
      cbn [config connections]. rewrite lookup_alter_eq. unfold deactivateAll.
      rewrite lookup_fmap, Er. reflexivity. }
    assert (Em : alter (setIsActive true) id
                   (deactivateAll (alter (setIsActive true) id
                      (deactivateAll (connections (config s)))))
                 = alter (setIsActive true) id (deactivateAll (connections (config s)))).
    { apply map_eq. intros k. destruct (decide (k = id)) as [->|Hk].
      - rewrite !lookup_alter_eq. unfold deactivateAll.
        rewrite !lookup_fmap, lookup_alter_eq, lookup_fmap, Er. reflexivity.
      - rewrite !lookup_alter_ne by congruence. unfold deactivateAll.
        rewrite !lookup_fmap, lookup_alter_ne by congruence. rewrite lookup_fmap.
        destruct (connections (config s) !! k); reflexivity. }
    destruct (writable w1); cbn [snd]; rewrite E, Em; reflexivity.
  - rewrite (read_inherited s id Er) in Ht.
    assert (Eown : deactivateAll (connections (config s)) !! id = None)
      by (apply lookup_deactivateAll_None; exact Er).
    destruct (touch (heap s) (readInherited (heap s) id)) as [h'|e] eqn:Hh.
    + destruct (touch_again _ _ _ Hh) as (Ht' & h'' & Hh').
      assert (E : forall o f, config (snd (setActiveConnection w2 id
                    (snd (o : Completion bool,
                          {| config := {| currentConnection := Some id;
                                          connections := deactivateAll (connections (config s)) |};
                             file := f; heap := h' |})))) =
                  {| currentConnection := Some id;
                     connections := deactivateAll (connections (config s)) |}).
      { intros o f. cbn [snd]. rewrite setActiveConnection_eq. unfold read.
        cbn [config connections heap]. rewrite Eown, Ht', Hh'. cbv zeta. cbn [negb].
        rewrite deactivateAll_idempotent. destruct (writable w2); reflexivity. }
      destruct (writable w1); rewrite E; reflexivity.
    + cbn [snd]. rewrite setActiveConnection_eq. unfold read.
      cbn [config connections heap currentConnection]. rewrite Eown, Ht, Hh.
      cbv zeta. cbn [negb]. rewrite deactivateAll_idempotent. reflexivity.
Qed.

(** X11: connecting under a new id and then removing that connection
    does not bring back whichever connection was active before: "default" is
    current and active, and every other record is inactive and otherwise as
    it was. *)
Theorem addConnection_then_remove (w w' : World) (id : string) (p : ConnectionParams)
    (s : Service) (snapshot : SchemaSnapshot) (d : DatabaseConnection) :
  connects w = true -> catalog w = Some snapshot ->
  connections (config s) !! id = None ->
  connections (config s) !! "default" = Some d ->
  let c' := config (snd (removeConnection w' id (snd (addConnection w id p s)))) in
  currentConnection c' = Some "default" /\
  connections c' !! "default" = Some (setIsActive true d) /\
  forall k, k <> "default" ->
    connections c' !! k = setIsActive false <$> connections (config s) !! k.
Proof.
  intros Hc Hs Hid Hd.
  assert (Hne : id <> "default") by (intros ->; congruence).
  set (s1 := snd (addConnection w id p s)).
  assert (Hcur : currentConnection (config s1) = Some id)
    by (apply (addConnection_current w id p s snapshot); assumption).
  assert (Hoth : forall k, k <> id ->
            connections (config s1) !! k = setIsActive false <$> connections (config s) !! k)
    by (intros k Hk; apply (addConnection_others w id p s snapshot); assumption).
  assert (Hd1 : connections (config s1) !! "default" = Some (setIsActive false d))
    by (rewrite Hoth, Hd by congruence; reflexivity).
  assert (Ht : truthy (read s1 id) = true)
    by (unfold s1; rewrite (addConnection_read w id p s snapshot Hc Hs); reflexivity).
  cbv zeta. rewrite (removeConnection_config w' id s1 (setIsActive false d) Ht Hne Hd1).
  rewrite bool_decide_eq_true_2 by exact Hcur. cbn [currentConnection connections].
  split; [reflexivity|]. split.
  - rewrite lookup_alter_eq, lookup_delete_ne, Hd1 by exact Hne. reflexivity.
  - intros k Hk. rewrite lookup_alter_ne by congruence.
    destruct (decide (k = id)) as [->|Hki].
    + rewrite lookup_delete_eq, Hid. reflexivity.
    + rewrite lookup_delete_ne by congruence. apply Hoth. exact Hki.
Qed.

Lemma addConnection_then_remove_witness :
  currentConnection (config (snd (removeConnection online "crm"
                                    (snd (addConnection online "crm" someParams fresh)))))
    = Some "default" /\
  connections (config (snd (removeConnection online "__proto__"
                              (snd (addConnection online "__proto__" someParams fresh)))))
    !! "default" = Some (setIsActive true defaultConnection).
Proof.
  split.
  - apply (addConnection_then_remove online online "crm" someParams fresh
             {| tables := []; extractedAt := "t0"; totalTables := 0 |} defaultConnection);
      reflexivity.
  - apply (addConnection_then_remove online online "__proto__" someParams fresh
             {| tables := []; extractedAt := "t0"; totalTables := 0 |} defaultConnection);
      reflexivity.
Defined.

End RegistryUse.

(** ** More on the translator's clean-up and fallback *)
Module CleanupFacts.
Import JS Gemini.

Lemma drop_includes (n : nat) (s sub : string) :
  includes (drop n s) sub = true -> includes s sub = true.
Proof.
  revert s; induction n as [|n IH]; intros s H; [exact H|].
  destruct s as [|c s]; [exact H|].
  cbn [drop] in H. cbn [includes]. rewrite (IH s H). apply orb_true_r.
Qed.

Lemma toLowerCase_drop (n : nat) (s : string) :
  toLowerCase (drop n s) = drop n (toLowerCase s).
Proof.
  revert s; induction n as [|n IH]; intros s; [reflexivity|].
  destruct s as [|c s]; [reflexivity|]. apply IH.
Qed.

Lemma trimStart_includes (s sub : string) :
  includes (toLowerCase (trimStart s)) sub = true -> includes (toLowerCase s) sub = true.
Proof.
  induction s as [|c s IH]; [auto|].
  cbn [trimStart]. destruct (isSpace c); [|auto].
  intros H. cbn [toLowerCase includes]. rewrite (IH H). apply orb_true_r.
Qed.

Lemma startsWithIgnoreCase_prefix (s lit : string) :
  startsWithIgnoreCase s lit = true ->
  String.prefix (toLowerCase lit) (toLowerCase s) = true.
Proof.
  revert s; induction lit as [|a lit IH]; intros s H.
  - destruct s; reflexivity.
  - destruct s as [|b s]; [discriminate|].
    cbn [startsWithIgnoreCase] in H. apply andb_true_iff in H as [Hc Hs].
    apply Ascii.eqb_eq in Hc. cbn [toLowerCase String.prefix].
    destruct (ascii_dec (lowerChar a) (lowerChar b)); [auto|contradiction].
Qed.

Lemma startsWithIgnoreCase_includes (s : string) :
  startsWithIgnoreCase s "SELECT" = true -> includes (toLowerCase s) "select" = true.
Proof.
  intros H. apply startsWithIgnoreCase_prefix in H.
  change (toLowerCase "SELECT") with "select" in H.
  destruct (toLowerCase s); cbn [includes]; unfold startsWith; rewrite H; reflexivity.
Qed.

Lemma leadingSelect_includes (s rest : string) :
  leadingSelect s = Some rest -> includes (toLowerCase s) "select" = true.
Proof.
  revert rest; induction s as [|c s IH]; intros rest; cbn [leadingSelect].
  - discriminate.
  - assert (Hhere : (if startsWithIgnoreCase (String c s) "SELECT"
                     then Some (drop 6 (String c s)) else None) = Some rest ->
                    includes (toLowerCase (String c s)) "select" = true).
    { destruct (startsWithIgnoreCase (String c s) "SELECT") eqn:E; [|discriminate].
      intros _. apply startsWithIgnoreCase_includes, E. }
    destruct (isS c); [exact Hhere|].
    destruct (leadingSelect s) as [r|]; [|exact Hhere].
    intros _. cbn [toLowerCase includes]. rewrite (IH r eq_refl). apply orb_true_r.
Qed.

Lemma fencedSelectAt_includes (s g : string) :
  fencedSelectAt s = Some g -> includes (toLowerCase s) "select" = true.
Proof.
  unfold fencedSelectAt. destruct (startsWith s "```"); [|discriminate].
  set (r := if startsWithIgnoreCase (drop 3 s) "sql" then drop 3 (drop 3 s) else drop 3 s).
  destruct (startsWithIgnoreCase (trimStart r) "SELECT") eqn:E; [|discriminate].
  intros _. apply startsWithIgnoreCase_includes, trimStart_includes in E.
  subst r. destruct (startsWithIgnoreCase (drop 3 s) "sql").
  - rewrite toLowerCase_drop in E. apply drop_includes in E.
    rewrite toLowerCase_drop in E. apply drop_includes in E. exact E.
  - rewrite toLowerCase_drop in E. apply drop_includes in E. exact E.
Qed.

Lemma fencedSelect_includes (s g : string) :
  fencedSelect s = Some g -> includes (toLowerCase s) "select" = true.
Proof.
  induction s as [|c s IH]; cbn [fencedSelect].
  - destruct (fencedSelectAt "") eqn:E; [|discriminate].
    intros _. apply (fencedSelectAt_includes _ _ E).
  - destruct (fencedSelectAt (String c s)) eqn:E.
    + intros _. apply (fencedSelectAt_includes _ _ E).
    + intros H. cbn [toLowerCase includes]. rewrite (IH H). apply orb_true_r.
Qed.

(** X12: an ASCII reply that holds the word select in no letter case
    comes back as it is, trimmed: the clean-up neither rejects nor changes
    it. *)
Theorem cleanResponse_without_select (rawSQL : string) :
  isASCII rawSQL = true ->
  includes (toLowerCase (trim rawSQL)) "select" = false ->
  cleanResponse rawSQL = trim rawSQL.
Proof.
  intros _ H. unfold cleanResponse.
  assert (Hf : fencedSelect (trim rawSQL) = None).
  { destruct (fencedSelect (trim rawSQL)) as [g|] eqn:E; [|reflexivity].
    apply fencedSelect_includes in E. congruence. }
  rewrite Hf.
  assert (E : (if includes (trim rawSQL) "```" then trim rawSQL else trim rawSQL) = trim rawSQL)
    by (destruct (includes (trim rawSQL) "```"); reflexivity).
  rewrite E. destruct (leadingSelect (trim rawSQL)) as [rest|] eqn:El; [|reflexivity].
  apply leadingSelect_includes in El. congruence.
Qed.

Lemma cleanResponse_without_select_witness :
  cleanResponse "  UPDATE loans SET amount = 0;  " = "UPDATE loans SET amount = 0;".
Proof.
  rewrite cleanResponse_without_select; reflexivity.
Defined.

Lemma leadingSelect_after_prefix (pre u : string) :
  allChars notS pre = true -> startsWithIgnoreCase u "SELECT" = true ->
  leadingSelect (pre +:+ u) = Some (drop 6 u).
Proof.
  intros Hp Hu. induction pre as [|c pre IH].
  - change ("" +:+ u) with u. destruct u as [|c u]; [discriminate|].
    cbn [leadingSelect]. rewrite Hu.
    cbn [startsWithIgnoreCase] in Hu. apply andb_true_iff in Hu as [Hc _].
    apply Ascii.eqb_eq in Hc.
    assert (Hs : isS c = true) by (unfold isS; rewrite <- Hc; reflexivity).
    rewrite Hs. reflexivity.
  - cbn [allChars] in Hp. apply andb_true_iff in Hp as [Hc Hp].
    change (String c pre +:+ u) with (String c (pre +:+ u)).
    cbn [leadingSelect]. unfold notS in Hc.
    destruct (isS c); [discriminate|]. rewrite (IH Hp). reflexivity.
Qed.

(** X13: when the reply is ASCII and, trimmed, has no code fence and
    reads [pre] followed by [u], where [pre] holds no letter s and [u] begins
    with select in any letter case, the clean-up drops [pre] and returns
    SELECT followed by what comes after the keyword. *)
Theorem cleanResponse_drops_prefix (rawSQL pre u : string) :
  isASCII rawSQL = true ->
  includes (trim rawSQL) "```" = false ->
  trim rawSQL = pre +:+ u ->
  allChars notS pre = true ->
  startsWithIgnoreCase u "SELECT" = true ->
  cleanResponse rawSQL = "SELECT" +:+ drop 6 u.
Proof.
  intros _ Hf Ht Hp Hu. unfold cleanResponse. rewrite Hf, Ht.
  rewrite (leadingSelect_after_prefix pre u Hp Hu). reflexivity.
Qed.

Lemma cleanResponse_drops_prefix_witness :
  cleanResponse " The query: select name from employees " = "SELECT name from employees".
Proof.
  apply (cleanResponse_drops_prefix _ "The query: " "select name from employees");
    reflexivity.
Defined.

(** *** Fenced replies *)

Lemma trimStart_spaces (ws : string) (c : ascii) (r : string) :
  allChars isSpace ws = true -> isSpace c = false ->
  trimStart (ws +:+ String c r) = String c r.
Proof.
  intros Hw Hc. induction ws as [|a ws IH].
  - change ("" +:+ String c r) with (String c r). cbn [trimStart]. rewrite Hc. reflexivity.
  - cbn [allChars] in Hw. apply andb_true_iff in Hw as [Ha Hw].
    change (String a ws +:+ String c r) with (String a (ws +:+ String c r)).
    cbn [trimStart]. rewrite Ha. exact (IH Hw).
Qed.

Lemma trimEnd_cons (c : ascii) (s : string) :
  isSpace c = false -> trimEnd s = s -> trimEnd (String c s) = String c s.
Proof.
  intros Hc Hs. cbn [trimEnd]. rewrite Hs. destruct s; [rewrite Hc|]; reflexivity.
Qed.

Lemma trimEnd_tail (c : ascii) (s : string) :
  trimEnd (String c s) = String c s -> trimEnd s = s.
Proof.
  cbn [trimEnd]. destruct (trimEnd s) as [|a t] eqn:E.
  - destruct (isSpace c); intros H; [discriminate|]. injection H as <-. reflexivity.
  - intros H. injection H as <-. reflexivity.
Qed.

Lemma trimEnd_append (s t : string) :
  trimEnd t = t -> t <> "" -> trimEnd (s +:+ t) = s +:+ t.
Proof.
  intros Ht Hne. induction s as [|c s IH]; [exact Ht|].
  change (String c s +:+ t) with (String c (s +:+ t)).
  cbn [trimEnd]. rewrite IH. destruct (s +:+ t) eqn:E; [|reflexivity].
  destruct s; [|discriminate]. contradiction.
Qed.

Lemma append_nonempty (s t : string) : t <> "" -> s +:+ t <> "".
Proof. intros Ht. destruct s; [exact Ht|discriminate]. Qed.

Lemma closesFence_spaces (ws tail : string) :
  allChars isSpace ws = true -> closesFence (ws +:+ String "`" (String "`" (String "`" tail))) = true.
Proof.
  intros Hw. unfold closesFence. rewrite trimStart_spaces by (exact Hw || reflexivity).
  destruct tail; reflexivity.
Qed.

Lemma closesFence_body (x t : string) :
  x <> "" -> trimEnd x = x -> allChars (fun c => negb (isBacktick c)) x = true ->
  closesFence (x +:+ t) = false.
Proof.
  induction x as [|c x IH]; intros Hne Ht Hb; [contradiction|].
  cbn [allChars] in Hb. apply andb_true_iff in Hb as [Hc Hb].
  change (String c x +:+ t) with (String c (x +:+ t)).
  unfold closesFence. cbn [trimStart]. destruct (isSpace c) eqn:Es.
  - assert (Hx : x <> "").
    { intros ->. cbn [trimEnd] in Ht. rewrite Es in Ht. discriminate. }
    apply (IH Hx (trimEnd_tail c x Ht) Hb).
  - unfold startsWith. cbn [String.prefix]. unfold isBacktick in Hc.
    destruct (ascii_dec "`" c) as [<-|]; [discriminate|reflexivity].
Qed.

Lemma lazyBody_body (x t : string) :
  trimEnd x = x -> allChars (fun c => negb (isBacktick c)) x = true ->
  closesFence t = true -> lazyBody (x +:+ t) = Some x.
Proof.
  intros Ht Hb Hc. induction x as [|c x IH].
  - change ("" +:+ t) with t. destruct t; cbn [lazyBody]; rewrite Hc; reflexivity.
  - pose proof (closesFence_body (String c x) t ltac:(discriminate) Ht Hb) as Hf.
    change (String c x +:+ t) with (String c (x +:+ t)) in *.
    cbn [lazyBody]. rewrite Hf.
    cbn [allChars] in Hb. apply andb_true_iff in Hb as [_ Hb].
    rewrite (IH (trimEnd_tail c x Ht) Hb). reflexivity.
Qed.

Lemma fencedSelectAt_sql (r : string) :
  fencedSelectAt (String "`" (String "`" (String "`" (String "s" (String "q" (String "l" r))))))
  = if startsWithIgnoreCase (trimStart r) "SELECT"
    then match lazyBody (drop 6 (trimStart r)) with
         | Some body => Some (substring 0 6 (trimStart r) +:+ body)
         | None => None
         end
    else None.
Proof.
  unfold fencedSelectAt.
  assert (E1 : startsWith (String "`" (String "`" (String "`"
                  (String "s" (String "q" (String "l" r)))))) "```" = true) by reflexivity.
  rewrite E1. cbn [drop].
  assert (E2 : startsWithIgnoreCase (String "s" (String "q" (String "l" r))) "sql" = true)
    by (destruct r; reflexivity).
  rewrite E2. reflexivity.
Qed.

(** X14: a reply that wraps a query in a code fence tagged sql is
    unwrapped to exactly that query: for [SELECT] followed by any ASCII text
    [x] without a backtick and without trailing white space, whatever ASCII
    white space surrounds it inside the fence. *)
Theorem cleanResponse_unwraps_fence (ws1 x ws2 : string) :
  allChars isSpace ws1 = true -> allChars isSpace ws2 = true ->
  isASCII x = true ->
  allChars (fun c => negb (isBacktick c)) x = true -> trimEnd x = x ->
  cleanResponse ("```sql" +:+ ws1 +:+ "SELECT" +:+ x +:+ ws2 +:+ "```") = "SELECT" +:+ x.
Proof.
  intros H1 H2 _ Hb Hx.
  set (tail := x +:+ ws2 +:+ "```").
  set (inner := ws1 +:+ "SELECT" +:+ tail).
  assert (Etrim : trim ("```sql" +:+ inner) = "```sql" +:+ inner).
  { unfold trim. change (trimStart ("```sql" +:+ inner)) with ("```sql" +:+ inner).
    assert (N : "```" <> "") by discriminate.
    subst inner tail. repeat (apply trimEnd_append; [|repeat apply append_nonempty; exact N]).
    reflexivity. }
  assert (Einner : trimStart inner = String "S" ("ELECT" +:+ tail)).
  { subst inner. change ("SELECT" +:+ tail) with (String "S" ("ELECT" +:+ tail)).
    apply trimStart_spaces; [exact H1|reflexivity]. }
  assert (Egroup : fencedSelect ("```sql" +:+ inner) = Some ("SELECT" +:+ x)).
  { change ("```sql" +:+ inner) with
      (String "`" (String "`" (String "`" (String "s" (String "q" (String "l" inner)))))).
    cbn [fencedSelect]. rewrite fencedSelectAt_sql, Einner.
    assert (E3 : startsWithIgnoreCase (String "S" ("ELECT" +:+ tail)) "SELECT" = true)
      by (destruct tail; reflexivity).
    rewrite E3.
    change (drop 6 (String "S" ("ELECT" +:+ tail))) with tail.
    assert (E4 : substring 0 6 (String "S" ("ELECT" +:+ tail)) = "SELECT")
      by (destruct tail; reflexivity).
    rewrite E4. subst tail.
    rewrite lazyBody_body; [reflexivity|exact Hx|exact Hb|].
    apply (closesFence_spaces ws2 ""). exact H2. }
  assert (Eclean : trim ("SELECT" +:+ x) = "SELECT" +:+ x).
  { unfold trim. change (trimStart ("SELECT" +:+ x)) with ("SELECT" +:+ x).
    change ("SELECT" +:+ x) with
      (String "S" (String "E" (String "L" (String "E" (String "C" (String "T" x)))))).
    repeat (apply trimEnd_cons; [reflexivity|]). exact Hx. }
  assert (Elead : leadingSelect ("SELECT" +:+ x) = Some x).
  { change ("SELECT" +:+ x) with (String "S" ("ELECT" +:+ x)). cbn [leadingSelect].
    change (isS "S") with true. cbn iota.
    assert (E5 : startsWithIgnoreCase (String "S" ("ELECT" +:+ x)) "SELECT" = true)
      by (destruct x; reflexivity).
    rewrite E5. reflexivity. }
  unfold cleanResponse. rewrite Etrim.
  assert (Einc : includes ("```sql" +:+ inner) "```" = true) by reflexivity.
  rewrite Einc, Egroup, Eclean, Elead. reflexivity.
Qed.

Lemma cleanResponse_unwraps_fence_witness :
  cleanResponse "```sql  SELECT name FROM employees;  ```" = "SELECT name FROM employees;".
Proof.
  apply (cleanResponse_unwraps_fence "  " " name FROM employees;" "  "); reflexivity.
Defined.

(** *** The fallback's rules *)

(** X15: whatever the fallback returns is one of the four rule texts,
    and then the table that text reads from is in the schema, or the default
    query over the schema's first table. *)
Theorem generateFallbackSQL_reads_existing_table (query : string) (schema : Schema)
    (sql : string) :
  generateFallbackSQL query schema = Return sql ->
  (sql = SQL_TOTAL_LOANS /\ In "loans" (tableNames schema)) \/
  (sql = SQL_CUSTOMER_COUNT /\ In "customers" (tableNames schema)) \/
  (sql = SQL_PAYMENTS /\ In "payments" (tableNames schema)) \/
  (sql = SQL_LOAN_TYPES /\ In "loans" (tableNames schema)) \/
  (exists firstTable rest t,
     tableNames schema = firstTable :: rest /\
     get (default [] (tables schema)) firstTable = Some t /\
     sql = "SELECT " +:+ join ", " (firstn 5 (Object_keys (default [] (columns t))))
           +:+ " FROM " +:+ firstTable +:+ " LIMIT 10;").
Proof.
  unfold generateFallbackSQL.
  destruct (tableNames schema) as [|firstTable rest] eqn:Et; [discriminate|].
  destruct (_ && Array_includes (firstTable :: rest) "loans") eqn:E1.
  { intros H; injection H as <-. left. split; [reflexivity|].
    apply andb_true_iff in E1 as [_ E1]. apply JSFacts.Array_includes_In, E1. }
  destruct (_ && Array_includes (firstTable :: rest) "customers") eqn:E2.
  { intros H; injection H as <-. right; left. split; [reflexivity|].
    apply andb_true_iff in E2 as [_ E2]. apply JSFacts.Array_includes_In, E2. }
  destruct (_ && Array_includes (firstTable :: rest) "payments") eqn:E3.
  { intros H; injection H as <-. right; right; left. split; [reflexivity|].
    apply andb_true_iff in E3 as [_ E3]. apply JSFacts.Array_includes_In, E3. }
  destruct (includes (toLowerCase query) "loan" && includes (toLowerCase query) "type"
            && Array_includes (firstTable :: rest) "loans") eqn:E4.
  { intros H; injection H as <-. right; right; right; left. split; [reflexivity|].
    apply andb_true_iff in E4 as [_ E4]. apply JSFacts.Array_includes_In, E4. }
  destruct (GeminiFacts.columnNames_first schema firstTable rest Et) as (t & Ht & Hc).
  rewrite Hc. intros H; injection H as <-.
  right; right; right; right. exists firstTable, rest, t. auto.
Qed.

Lemma generateFallbackSQL_reads_existing_table_witness :
  generateFallbackSQL "count the customers" Routes.sessionSchema
    = Return "SELECT id, name, department, salary, hire_date FROM employees LIMIT 10;" /\
  ~ In "customers" (tableNames Routes.sessionSchema).
Proof.
  split; [reflexivity|].
  intros Hin.
  destruct (generateFallbackSQL_reads_existing_table "count the customers"
              Routes.sessionSchema _ eq_refl)
    as [[H _]|[[H _]|[[H _]|[[H _]|_]]]]; try discriminate H.
  simpl in Hin. intuition discriminate.
Defined.

(** X28: when the text-generation call is rejected the translator
    hands back the fallback's outcome, whatever the sector: a text that begins
    with the SELECT keyword when the schema has a table, the no-tables error
    when it has none. *)
Theorem generateSQLFromQuery_rejected (query : string) (schema : Schema) (sector : string) :
  (tableNames schema <> [] ->
     exists sql, generateSQLFromQuery Rejected query schema sector = Return sql /\
                 startsWith sql "SELECT " = true) /\
  (tableNames schema = [] ->
     generateSQLFromQuery Rejected query schema sector = Throw (Error NO_TABLES)).
Proof.
  cbn [generateSQLFromQuery]. split.
  - intros Hne. destruct (tableNames schema) as [|firstTable rest] eqn:E; [contradiction|].
    destruct (GeminiFacts.generateFallbackSQL_returns query schema firstTable rest E)
      as [sql Hs].
    exists sql. split; [exact Hs|].
    apply (GeminiFacts.generateFallbackSQL_starts_with_SELECT query schema sql Hs).
  - apply GeminiFacts.generateFallbackSQL_empty.
Qed.

Lemma generateSQLFromQuery_rejected_witness :
  exists sql, generateSQLFromQuery Rejected "top earners" Routes.sessionSchema "ithr"
              = Return sql /\ startsWith sql "SELECT " = true.
Proof.
  apply (generateSQLFromQuery_rejected "top earners" Routes.sessionSchema "ithr").
  discriminate.
Defined.

(** *** Shapes of the suggester's reply *)


(** X16: one null among the suggestions of the primary tier discards
    the whole reply, complete suggestions included: what comes back is what
    the fallback lookup gives, which is the sector's fixed list unless the
    sector names an inherited member. *)
Theorem generateKPISuggestions_null_element (JSON_parse : string -> option JSON)
    (polluted : bool) (rawJson : string) (suggestions : list JSON) (schema : Schema)
    (sector : string) :
  rawJson <> "" -> JSON_parse rawJson = Some (JArray suggestions) ->
  In JNull suggestions ->
  generateKPISuggestions JSON_parse polluted (Response (Some rawJson)) schema sector
    = getFallbackSuggestions polluted sector /\
  (inherited polluted sector = None ->
     generateKPISuggestions JSON_parse polluted (Response (Some rawJson)) schema sector
       = Suggestions (map toObject (fixedSuggestions sector))).
Proof.
  intros Hne Hp Hn.
  assert (E : generateKPISuggestions JSON_parse polluted (Response (Some rawJson))
                schema sector = getFallbackSuggestions polluted sector).
  { unfold generateKPISuggestions.
    destruct (String.eqb_spec rawJson ""); [contradiction|]. rewrite Hp.
    apply GeminiFacts.Array_filter_null in Hn as [e ->]. reflexivity. }
  split; [exact E|]. intros Hi.
  rewrite E, GeminiFacts.getFallbackSuggestions_eq, Hi.
  destruct (get fallbackSuggestions sector); reflexivity.
Qed.

Lemma generateKPISuggestions_null_element_witness :
  let good := toObject {| id := "a"; name := "A"; description := "d";
                          query_template := "q"; category := "c" |} in
  generateKPISuggestions (fun _ => Some (JArray [good; JNull])) false
    (Response (Some "[..]")) Routes.sessionSchema "ithr" = Suggestions (map toObject ithr).
Proof.
  intros good.
  apply (generateKPISuggestions_null_element _ false "[..]" [good; JNull]);
    [discriminate|reflexivity|right; left; reflexivity|reflexivity].
Defined.



End CleanupFacts.

(** ** More on the route helpers *)
Module RoutesUse.
Import JS Routes.

(** X18: in every envelope the chart series is the table read through
    the two axis fields: point for row, the entries under [xAxis] and [yAxis]
    with the values the row has. *)
Theorem generateMockResults_chart_is_projection (query sector : string) :
  let r := generateMockResults query sector in
  data (chart_data r)
  = map (project [xAxis (chart_data r); yAxis (chart_data r)]) (table_data r).
Proof.
  unfold generateMockResults.
  repeat match goal with
         | |- context [if ?b then _ else _] => destruct b
         end; reflexivity.
Qed.

(** X19: the SQL text shown and the envelope returned for a question
    are always picked by the same rule: a line chart goes with the
    transactions query only, a pie chart with the departments query only, and
    a bar chart with the salary query or the default one. *)
Theorem generateMockSQL_matches_results (query sector : string) :
  let sql := generateMockSQL query sector in
  let r := generateMockResults query sector in
  (sql = SQL_SALARY /\ type (chart_data r) = bar
     /\ columns r = ["department"; "avg_salary"; "employee_count"]) \/
  (sql = SQL_TRANSACTIONS /\ type (chart_data r) = line
     /\ columns r = ["date"; "total_amount"; "transaction_count"]) \/
  (sql = SQL_DEPARTMENTS /\ type (chart_data r) = pie
     /\ columns r = ["department"; "employee_count"]) \/
  (sql = SQL_DEFAULT /\ type (chart_data r) = bar
     /\ columns r = ["id"; "name"; "department"; "salary"]).
Proof.
  unfold generateMockSQL, generateMockResults.
  destruct (includes (toLowerCase query) "salary" || includes (toLowerCase query) "employee");
    [left; auto|].
  destruct (includes (toLowerCase query) "transaction" || includes (toLowerCase query) "volume");
    [right; left; auto|].
  destruct (includes (toLowerCase query) "department" || includes (toLowerCase query) "count");
    [right; right; left; auto|].
  right; right; right; auto.
Qed.

(** X20: a question that mentions transaction or volume gets the
    thirty-day transactions query and a line chart provided it mentions
    neither salary nor employee, in any letter case; the salary rule comes
    first. *)
Theorem transaction_question_line_chart (query sector : string) :
  includes (toLowerCase query) "transaction" = true
    \/ includes (toLowerCase query) "volume" = true ->
  includes (toLowerCase query) "salary" = false ->
  includes (toLowerCase query) "employee" = false ->
  generateMockSQL query sector = SQL_TRANSACTIONS /\
  includes (generateMockSQL query sector) "INTERVAL '30 days'" = true /\
  type (chart_data (generateMockResults query sector)) = line.
Proof.
  intros Ht Hs He. unfold generateMockSQL, generateMockResults. rewrite Hs, He.
  assert (E : includes (toLowerCase query) "transaction"
              || includes (toLowerCase query) "volume" = true)
    by (apply orb_true_iff; exact Ht).
  rewrite E. repeat split; reflexivity.
Qed.

Lemma transaction_question_line_chart_witness :
  generateMockSQL "Daily Transaction VOLUME" "bank" = SQL_TRANSACTIONS /\
  type (chart_data (generateMockResults "Daily Transaction VOLUME" "bank")) = line.
Proof.
  destruct (transaction_question_line_chart "Daily Transaction VOLUME" "bank")
    as (H1 & _ & H2); [left; reflexivity|reflexivity|reflexivity|].
  split; [exact H1|exact H2].
Defined.

(** X21: the route file's suggestion list has three entries with
    distinct ids for the sectors bank, finance and ithr, and is empty for any
    other sector. *)
Theorem route_suggestions_by_sector (sector : string) :
  (In sector ["bank"; "finance"; "ithr"] ->
     length (generateKPISuggestions sector) = 3 /\
     List.NoDup (map id (generateKPISuggestions sector))) /\
  (~ In sector ["bank"; "finance"; "ithr"] -> generateKPISuggestions sector = []).
Proof.
  unfold generateKPISuggestions. split.
  - intros [<-|[<-|[<-|[]]]]; (split; [reflexivity|]);
      repeat constructor; simpl; intuition discriminate.
  - intros H.
    destruct (String.eqb_spec sector "bank") as [->|_]; [exfalso; apply H; simpl; auto|].
    destruct (String.eqb_spec sector "finance") as [->|_]; [exfalso; apply H; simpl; auto|].
    destruct (String.eqb_spec sector "ithr") as [->|_]; [exfalso; apply H; simpl; auto|].
    reflexivity.
Qed.

Lemma route_suggestions_by_sector_witness :
  generateKPISuggestions "retail" = [].
Proof.
  apply (route_suggestions_by_sector "retail"). simpl. intuition discriminate.
Defined.

End RoutesUse.

(** ** The route handlers *)
Module ApiFacts.
Import JS Api.

(** X22: exactly the three built-in name and password pairs log in;
    the token's payload then carries the account's sector and role; every
    other pair, unknown name or wrong password alike, gets the same 401
    answer. *)
Theorem login_accepts_exactly (sign : User -> string) (name pass : string) :
  (status (login sign (Some (name, pass))) = 200%Z <->
     In (name, pass) [("admin@bank", "bank123"); ("admin@finance", "finance123");
                      ("admin@ithr", "ithr123")]) /\
  (status (login sign (Some (name, pass))) <> 200%Z ->
     login sign (Some (name, pass)) = failure 401 "Invalid credentials") /\
  (forall account, get ADMIN_ACCOUNTS name = Some account -> password account = pass ->
     let user := {| username := name; user_sector := sector account;
                    user_role := role account |} in
     login sign (Some (name, pass)) = ok (LoggedIn (sign user) user)).
Proof.
  unfold login, ADMIN_ACCOUNTS. cbn [get].
  destruct (String.eqb_spec "admin@bank" name) as [<-|N1].
  { cbn [password]. destruct (String.eqb_spec "bank123" pass) as [<-|Np]; cbn [negb].
    - split; [split; [intros _; left; reflexivity|reflexivity]|].
      split; [intros H; exfalso; apply H; reflexivity|].
      intros account E _. injection E as <-. reflexivity.
    - split; [split; [discriminate|]|].
      + intros [E|[E|[E|[]]]]; injection E; intros; try discriminate; congruence.
      + split; [reflexivity|]. intros account E Hp. injection E as <-. contradiction. }
  destruct (String.eqb_spec "admin@finance" name) as [<-|N2].
  { cbn [password]. destruct (String.eqb_spec "finance123" pass) as [<-|Np]; cbn [negb].
    - split; [split; [intros _; right; left; reflexivity|reflexivity]|].
      split; [intros H; exfalso; apply H; reflexivity|].
      intros account E _. injection E as <-. reflexivity.
    - split; [split; [discriminate|]|].
      + intros [E|[E|[E|[]]]]; injection E; intros; try discriminate; congruence.
      + split; [reflexivity|]. intros account E Hp. injection E as <-. contradiction. }
  destruct (String.eqb_spec "admin@ithr" name) as [<-|N3].
  { cbn [password]. destruct (String.eqb_spec "ithr123" pass) as [<-|Np]; cbn [negb].
    - split; [split; [intros _; right; right; left; reflexivity|reflexivity]|].
      split; [intros H; exfalso; apply H; reflexivity|].
      intros account E _. injection E as <-. reflexivity.
    - split; [split; [discriminate|]|].
      + intros [E|[E|[E|[]]]]; injection E; intros; try discriminate; congruence.
      + split; [reflexivity|]. intros account E Hp. injection E as <-. contradiction. }
  split; [split; [discriminate|]|].
  - intros [E|[E|[E|[]]]]; injection E; intros; congruence.
  - split; [reflexivity|]. intros account E. discriminate E.
Qed.

Lemma login_accepts_exactly_witness :
  login (fun _ => "token") (Some ("admin@ithr", "ithr123"))
    = ok (LoggedIn "token" {| username := "admin@ithr"; user_sector := "ithr";
                              user_role := "admin" |}) /\
  login (fun _ => "token") (Some ("admin@ithr", "bank123"))
    = failure 401 "Invalid credentials".
Proof.
  split.
  - apply (proj2 (proj2 (login_accepts_exactly (fun _ => "token") "admin@ithr" "ithr123"))
             {| password := "ithr123"; sector := "ithr"; role := "admin" |});
      reflexivity.
  - apply (login_accepts_exactly (fun _ => "token") "admin@ithr" "bank123"). discriminate.
Defined.






End ApiFacts.

(** ** Formatting the extracted schema *)
Module SchemaFacts.
Import JS DatabaseConfigService.

Section AssignAll.
Context {A B : Type} (key : A -> string) (value : A -> B).

Lemma includes_get (o : Obj B) (k : string) :
  Array_includes (Object_keys o) k = match get o k with Some _ => true | None => false end.
Proof.
  unfold Object_keys. induction o as [|[k0 v0] o IH]; cbn [map fst Array_includes get].
  - reflexivity.
  - destruct (String.eqb k0 k); [reflexivity|exact IH].
Qed.

Lemma get_replaceProp (o : Obj B) (k k' : string) (v : B) :
  is_Some (get o k) ->
  get (replaceProp o k v) k' = if String.eqb k k' then Some v else get o k'.
Proof.
  induction o as [|[k0 v0] o IH]; cbn [replaceProp get]; intros H.
  - destruct H as [x H]. discriminate H.
  - destruct (String.eqb_spec k0 k) as [->|Hne]; cbn [get].
    + destruct (String.eqb_spec k k'); reflexivity.
    + destruct (String.eqb_spec k0 k') as [->|Hne'].
      * destruct (String.eqb_spec k k'); [congruence|reflexivity].
      * apply IH, H.
Qed.

Lemma keys_replaceProp (o : Obj B) (k : string) (v : B) :
  Object_keys (replaceProp o k v) = Object_keys o.
Proof.
  unfold Object_keys. induction o as [|[k0 v0] o IH]; cbn [replaceProp map fst].
  - reflexivity.
  - destruct (String.eqb k0 k); cbn [map fst]; [reflexivity|]. rewrite IH. reflexivity.
Qed.

Lemma get_insertIndex (o : Obj B) (n : N) (k k' : string) (v : B) :
  get o k = None ->
  get (insertIndex o n k v) k' = if String.eqb k k' then Some v else get o k'.
Proof.
  induction o as [|[k0 v0] o IH]; cbn [insertIndex get]; intros H.
  - reflexivity.
  - destruct (String.eqb_spec k0 k) as [E|Hne]; [discriminate H|].
    destruct (arrayIndex k0) as [n0|]; [destruct (n0 <? n)%N|]; cbn [get];
      try reflexivity.
    rewrite (IH H). destruct (String.eqb_spec k0 k') as [->|_]; [|reflexivity].
    destruct (String.eqb_spec k k'); [congruence|reflexivity].
Qed.

Lemma keys_insertIndex (o : Obj B) (n : N) (k k' : string) (v : B) :
  In k' (Object_keys (insertIndex o n k v)) <-> k' = k \/ In k' (Object_keys o).
Proof.
  unfold Object_keys. induction o as [|[k0 v0] o IH]; cbn [insertIndex map fst].
  - simpl. intuition congruence.
  - destruct (arrayIndex k0) as [n0|]; [destruct (n0 <? n)%N|]; cbn [map fst];
      simpl; rewrite ?IH; intuition congruence.
Qed.

Lemma length_insertIndex (o : Obj B) (n : N) (k : string) (v : B) :
  length (insertIndex o n k v) = S (length o).
Proof.
  induction o as [|[k0 v0] o IH]; cbn [insertIndex length]; [reflexivity|].
  destruct (arrayIndex k0) as [n0|]; [destruct (n0 <? n)%N|]; cbn [length];
    try reflexivity.
  rewrite IH. reflexivity.
Qed.

Lemma get_append (o : Obj B) (k k' : string) (v : B) :
  get o k = None ->
  get (o ++ [(k, v)]) k' = if String.eqb k k' then Some v else get o k'.
Proof.
  induction o as [|[k0 v0] o IH]; cbn [app get]; intros H.
  - reflexivity.
  - destruct (String.eqb_spec k0 k) as [E|Hne]; [discriminate H|].
    rewrite (IH H). destruct (String.eqb_spec k0 k') as [->|_]; [|reflexivity].
    destruct (String.eqb_spec k k'); [congruence|reflexivity].
Qed.

(** A key other than ["__proto__"] reads back what was assigned to it, and
    no assignment changes what another key reads. *)
Lemma get_setProp (o : Obj B) (k k' : string) (v : B) :
  k <> "__proto__" ->
  get (setProp o k v) k' = if String.eqb k k' then Some v else get o k'.
Proof.
  intros Hk. unfold setProp. destruct (String.eqb_spec k "__proto__"); [contradiction|].
  destruct (get o k) as [x|] eqn:E.
  - apply get_replaceProp. rewrite E. eauto.
  - destruct (arrayIndex k); [apply get_insertIndex|apply get_append]; exact E.
Qed.

Lemma get_setProp_other (o : Obj B) (k k' : string) (v : B) :
  k <> k' -> get (setProp o k v) k' = get o k'.
Proof.
  intros Hne. destruct (String.eqb_spec k "__proto__") as [->|Hk]; [reflexivity|].
  rewrite (get_setProp o k k' v Hk). destruct (String.eqb_spec k k'); [contradiction|].
  reflexivity.
Qed.

Lemma keys_setProp_In (o : Obj B) (k k' : string) (v : B) :
  In k' (Object_keys (setProp o k v))
  <-> In k' (Object_keys o) \/ (k' = k /\ k <> "__proto__").
Proof.
  unfold setProp. destruct (String.eqb_spec k "__proto__") as [->|Hk]; [tauto|].
  destruct (get o k) as [x|] eqn:E.
  - rewrite keys_replaceProp. split; [auto|]. intros [H|[-> _]]; [exact H|].
    apply JSFacts.Array_includes_In. rewrite includes_get, E. reflexivity.
  - destruct (arrayIndex k).
    + rewrite keys_insertIndex. tauto.
    + unfold Object_keys. rewrite map_app, in_app_iff. simpl. intuition congruence.
Qed.

Lemma length_setProp (o : Obj B) (k : string) (v : B) :
  length (setProp o k v) =
  if String.eqb k "__proto__" || Array_includes (Object_keys o) k
  then length o else S (length o).
Proof.
  unfold setProp. rewrite includes_get.
  destruct (String.eqb k "__proto__"); [reflexivity|]. cbn [orb].
  destruct (get o k) as [x|].
  - rewrite <- !(length_map fst). apply (f_equal (@length string)), keys_replaceProp.
  - destruct (arrayIndex k); [apply length_insertIndex|].
    rewrite length_app. simpl. lia.
Qed.

Lemma keys_setProp_ordinary (o : Obj B) (k : string) (v : B) :
  ordinaryKey k = true -> Array_includes (Object_keys o) k = false ->
  Object_keys (setProp o k v) = Object_keys o ++ [k].
Proof.
  unfold ordinaryKey, setProp. rewrite includes_get.
  destruct (String.eqb k "__proto__"); [discriminate|].
  destruct (arrayIndex k); [discriminate|]. intros _.
  destruct (get o k); [discriminate|]. intros _.
  unfold Object_keys. rewrite map_app. reflexivity.
Qed.

Lemma get_assignAll_other (items : list A) (o : Obj B) (k : string) :
  (forall item, In item items -> key item <> k) ->
  get (assignAll key value items o) k = get o k.
Proof.
  unfold assignAll. revert o; induction items as [|x items IH]; intros o H; [reflexivity|].
  cbn [fold_left]. rewrite IH by (intros item Hi; apply H; right; exact Hi).
  apply get_setProp_other. apply H. left. reflexivity.
Qed.

Lemma get_assignAll_last (before after : list A) (x : A) (o : Obj B) :
  key x <> "__proto__" ->
  (forall item, In item after -> key item <> key x) ->
  get (assignAll key value (before ++ x :: after) o) (key x) = Some (value x).
Proof.
  intros Hk H. unfold assignAll. rewrite fold_left_app. cbn [fold_left].
  fold (assignAll key value after
          (setProp (fold_left (fun o item => setProp o (key item) (value item)) before o)
             (key x) (value x))).
  rewrite get_assignAll_other by exact H.
  rewrite get_setProp by exact Hk. rewrite String.eqb_refl. reflexivity.
Qed.

Lemma get_assignAll_proto (items : list A) (o : Obj B) :
  get (assignAll key value items o) "__proto__" = get o "__proto__".
Proof.
  unfold assignAll. revert o; induction items as [|x items IH]; intros o; [reflexivity|].
  cbn [fold_left]. rewrite IH.
  destruct (String.eqb_spec (key x) "__proto__") as [E|Hne].
  - unfold setProp. rewrite E. reflexivity.
  - apply get_setProp_other. exact Hne.
Qed.

Lemma keys_assignAll_In (items : list A) (o : Obj B) (k : string) :
  In k (Object_keys (assignAll key value items o))
  <-> In k (Object_keys o) \/ (In k (map key items) /\ k <> "__proto__").
Proof.
  unfold assignAll. revert o; induction items as [|x items IH]; intros o; cbn [fold_left map].
  - simpl. tauto.
  - rewrite IH, keys_setProp_In. simpl. intuition congruence.
Qed.

Lemma keys_assignAll_length (items : list A) (o : Obj B) :
  length (assignAll key value items o) <= length o + length items.
Proof.
  unfold assignAll. revert o; induction items as [|x items IH]; intros o; cbn [fold_left length].
  - lia.
  - etransitivity; [apply IH|]. rewrite length_setProp.
    destruct (String.eqb (key x) "__proto__" || Array_includes (Object_keys o) (key x)); lia.
Qed.

Lemma keys_assignAll_distinct (items : list A) (o : Obj B) :
  List.NoDup (Object_keys o ++ map key items) ->
  forallb ordinaryKey (map key items) = true ->
  Object_keys (assignAll key value items o) = Object_keys o ++ map key items.
Proof.
  unfold assignAll. revert o; induction items as [|x items IH]; intros o H Ho;
    cbn [fold_left map].
  - rewrite app_nil_r. reflexivity.
  - cbn [map forallb] in Ho. apply andb_true_iff in Ho as [Hx' Ho].
    assert (Hx : Array_includes (Object_keys o) (key x) = false).
    { destruct (Array_includes (Object_keys o) (key x)) eqn:E; [|reflexivity].
      apply JSFacts.Array_includes_In in E. exfalso.
      apply NoDup_remove_2 in H. apply H. apply in_or_app. left. exact E. }
    pose proof (keys_setProp_ordinary o (key x) (value x) Hx' Hx) as Hk.
    rewrite IH; rewrite ?Hk, <- ?app_assoc; [reflexivity|exact H|exact Ho].
Qed.

Lemma keys_assignAll_dropped (before after : list A) (x : A) (o : Obj B) :
  In (key x) (map key before) \/ key x = "__proto__" ->
  length (assignAll key value (before ++ x :: after) o)
  < length o + length (before ++ x :: after).
Proof.
  intros Hin. unfold assignAll. rewrite fold_left_app. cbn [fold_left].
  set (o1 := fold_left (fun o item => setProp o (key item) (value item)) before o).
  assert (H1 : length o1 <= length o + length before) by apply keys_assignAll_length.
  assert (Hx : String.eqb (key x) "__proto__" || Array_includes (Object_keys o1) (key x)
               = true).
  { destruct (String.eqb_spec (key x) "__proto__") as [E|Hne]; [reflexivity|].
    destruct Hin as [Hin|E]; [|contradiction]. cbn [orb].
    apply JSFacts.Array_includes_In. apply keys_assignAll_In. right. auto. }
  pose proof (keys_assignAll_length after (setProp o1 (key x) (value x))) as H2.
  unfold assignAll in H2. rewrite length_setProp, Hx in H2.
  rewrite length_app. cbn [length]. lia.
Qed.

Lemma assignAll_proto (items : list A) (o : Obj B) :
  (forall item, In item items -> key item = "__proto__") ->
  assignAll key value items o = o.
Proof.
  unfold assignAll. revert o; induction items as [|x items IH]; intros o H; [reflexivity|].
  cbn [fold_left]. unfold setProp at 2. rewrite (H x (or_introl eq_refl)).
  cbn [String.eqb Ascii.eqb Bool.eqb]. apply IH. intros item Hi. apply H. right. exact Hi.
Qed.

End AssignAll.

(** X25: in the formatted schema a table name other than ["__proto__"]
    leads to the columns of the last catalog row of that name, so that of two
    tables of one name in different database schemas only the later one is
    kept; a table named ["__proto__"] gets no entry; and a name no catalog row
    has leads nowhere. *)
Theorem formatSchema_last_row_wins (before after : list TableRows) (table : TableRows)
    (now : string) :
  (forall other, In other after -> table_name other <> table_name table) ->
  (table_name table <> "__proto__" ->
     get (tables (formatSchema (before ++ table :: after) now)) (table_name table)
       = Some (formatTable table)) /\
  get (tables (formatSchema (before ++ table :: after) now)) "__proto__" = None /\
  forall name, ~ In name (map table_name (before ++ table :: after)) ->
    get (tables (formatSchema (before ++ table :: after) now)) name = None.
Proof.
  intros H. cbn [formatSchema tables]. split; [|split].
  - intros Hk. apply get_assignAll_last; assumption.
  - rewrite get_assignAll_proto. reflexivity.
  - intros name Hn. rewrite get_assignAll_other; [reflexivity|].
    intros item Hi E. apply Hn. rewrite <- E. apply in_map. exact Hi.
Qed.

Lemma formatSchema_last_row_wins_witness :
  let col := {| column_name := "id"; data_type := "integer"; is_nullable := "NO";
                column_default := None |} in
  let a := {| table_name := "users"; table_schema := "public"; column_rows := [] |} in
  let b := {| table_name := "users"; table_schema := "audit"; column_rows := [col] |} in
  get (tables (formatSchema [a; b] "t0")) "users" = Some (formatTable b).
Proof.
  intros col a b.
  apply (formatSchema_last_row_wins [a] [] b "t0"); [intros other []|discriminate].
Defined.

(** X26: when the catalog rows have distinct table names, none of them
    an array index or ["__proto__"], the formatted schema lists exactly those
    names, in catalog order, and [totalTables] is their number; when a name
    occurs twice or a table is named ["__proto__"], [totalTables] exceeds the
    number of tables the formatted schema holds. *)
Theorem formatSchema_totalTables (catalogRows : list TableRows) (now : string) :
  (List.NoDup (map table_name catalogRows) ->
   forallb ordinaryKey (map table_name catalogRows) = true ->
     Object_keys (tables (formatSchema catalogRows now)) = map table_name catalogRows /\
     totalTables (formatSchema catalogRows now)
       = Z.of_nat (length (Object_keys (tables (formatSchema catalogRows now))))) /\
  (forall before table after,
     catalogRows = before ++ table :: after ->
     In (table_name table) (map table_name before) \/ table_name table = "__proto__" ->
     (Z.of_nat (length (Object_keys (tables (formatSchema catalogRows now))))
      < totalTables (formatSchema catalogRows now))%Z).
Proof.
  cbn [formatSchema tables totalTables]. split.
  - intros H Ho.
    assert (E : Object_keys (assignAll table_name formatTable catalogRows [])
                = map table_name catalogRows)
      by (apply (keys_assignAll_distinct table_name formatTable catalogRows []); assumption).
    split; [exact E|]. rewrite E, length_map. reflexivity.
  - intros before table after -> Hin.
    pose proof (keys_assignAll_dropped table_name formatTable before after table [] Hin) as H.
    cbn [length] in H. unfold Object_keys. rewrite length_map.
    apply inj_lt. exact H.
Qed.

Lemma formatSchema_totalTables_witness :
  let a := {| table_name := "users"; table_schema := "public"; column_rows := [] |} in
  let b := {| table_name := "users"; table_schema := "audit"; column_rows := [] |} in
  let c := {| table_name := "orders"; table_schema := "public"; column_rows := [] |} in
  (Z.of_nat (length (Object_keys (tables (formatSchema [a; b] "t0"))))
   < totalTables (formatSchema [a; b] "t0"))%Z /\
  Object_keys (tables (formatSchema [a; c] "t0")) = ["users"; "orders"].
Proof.
  intros a b c. split.
  - apply (proj2 (formatSchema_totalTables [a; b] "t0") [a] b []); [reflexivity|].
    left. left. reflexivity.
  - apply (proj1 (formatSchema_totalTables [a; c] "t0")); [|reflexivity].
    repeat constructor; simpl; intuition discriminate.
Defined.

(** Table names that are array indices are listed first, in ascending
    numeric order, whatever the catalog order. *)
Example formatSchema_index_names :
  let t name := {| table_name := name; table_schema := "public"; column_rows := [] |} in
  Object_keys (tables (formatSchema [t "b"; t "10"; t "9"; t "a"; t "007"] "t0"))
  = ["9"; "10"; "b"; "a"; "007"].
Proof. reflexivity. Qed.

(** X27: run on an extracted schema, the translator's fallback fails
    exactly when the catalog listed no table other than tables named
    ["__proto__"], which the formatted schema does not hold. *)
Theorem generateFallbackSQL_on_extracted (query : string) (catalogRows : list TableRows)
    (now : string) :
  Gemini.generateFallbackSQL query (asSchema (formatSchema catalogRows now))
    = Throw (Error Gemini.NO_TABLES)
  <-> forall table, In table catalogRows -> table_name table = "__proto__".
Proof.
  split.
  - intros H table Hin.
    destruct (String.eqb_spec (table_name table) "__proto__") as [E|Hne]; [exact E|].
    exfalso.
    assert (Hk : In (table_name table)
                   (Gemini.tableNames (asSchema (formatSchema catalogRows now)))).
    { unfold Gemini.tableNames. cbn [asSchema formatSchema Gemini.tables tables default].
      apply keys_assignAll_In. right. split; [apply in_map; exact Hin|exact Hne]. }
    destruct (Gemini.tableNames (asSchema (formatSchema catalogRows now)))
      as [|first others] eqn:E; [destruct Hk|].
    destruct (GeminiFacts.generateFallbackSQL_returns query _ first others E) as [sql Hs].
    rewrite Hs in H. discriminate.
  - intros H. apply GeminiFacts.generateFallbackSQL_empty.
    unfold Gemini.tableNames. cbn [asSchema formatSchema Gemini.tables tables default].
    rewrite (assignAll_proto table_name formatTable catalogRows [] H). reflexivity.
Qed.

Lemma generateFallbackSQL_on_extracted_witness :
  let hidden := {| table_name := "__proto__"; table_schema := "public"; column_rows := [] |} in
  Gemini.generateFallbackSQL "anything" (asSchema (formatSchema [hidden] "t0"))
    = Throw (Error Gemini.NO_TABLES).
Proof.
  intros hidden.
  apply (generateFallbackSQL_on_extracted "anything" [hidden] "t0").
  intros table [<-|[]]. reflexivity.
Defined.

End SchemaFacts.
